(** * Cross-border electricity flows: the analytical core of the dashboard

    A shallow embedding of the computations of [src/app.py] (series loading,
    country balance, completeness report), [src/fetch_data.py] and
    [src/import_csv.py] (consolidation of ingested observations), with the
    properties the specification states about them.  The last part adds the
    selectors, the date filter, the aggregations, the metrics and the
    progress bar of [src/app.py], the monthly requests and the data store
    of [src/fetch_data.py], the whole of the script [src/import_csv.py] and
    [src/generate_dummy_data.py], with properties read off the code.

    Conventions of the embedding.
    - A timestamp is an integer number of seconds since the epoch.  A pandas
      datetime column or index is either tz-aware (the numbers are instants)
      or tz-naive (the numbers are wall-clock readings); pandas never
      identifies a naive value with an aware one, and the model keeps that tag.
    - A calendar date ([datetime.date]) is its day number since the epoch.
    - The percentage of the completeness report is an exact rational; the
      flows of the balance are elements of an arbitrary number type with a
      NaN, so that the statements hold for binary64 as well.
    - A series is a finite map from timestamps to flows: the column of a
      frame with one record per timestamp.
    - Python's [try]/[except] is a small state-and-exception monad: the local
      variables assigned before an exception is raised keep their values. *)

From Stdlib Require Import ZArith QArith List Lia PrimFloat Ascii.
From Stdlib Require Import SpecFloat FloatOps FloatAxioms.
From stdpp Require Import gmap strings list fin_maps sorting.

Local Open Scope Z_scope.

(** ** Static topology ([countries.json]) *)

Record Country := mkCountry {
  code : string;
  name : string;
  neighbors : list string
}.

(** ** The files under [data/] *)

(** What pandas makes of the [timestamp] field of the records of a file:
    the field may be missing, [pd.to_datetime] may reject it, and otherwise
    the column is a datetime column with or without a timezone. *)
Inductive TsColumn := NoTimestampColumn | Unparsable | TzNaive | TzAware.

(** A frame as [pd.read_json] returns it: the records of the file in file
    order, each a timestamp and a flow. *)
Record DataFrame (num : Type) := mkDataFrame {
  ts_column : TsColumn;
  records : list (Z * num)
}.
Arguments mkDataFrame {num} _ _.
Arguments ts_column {num} _.
Arguments records {num} _.

(** The content of an existing file: [pd.read_json] raises on [BadJson]. *)
Inductive FileContent (num : Type) :=
| BadJson
| Json (df : DataFrame num).
Arguments BadJson {num}.
Arguments Json {num} df.

(** [os.path.exists] is [false] exactly where the file system has [None]. *)
Definition FileSystem (num : Type) := string -> option (FileContent num).

Definition flow_filename (code_from code_to : string) : string :=
  "data/flow_" +:+ code_from +:+ "_" +:+ code_to +:+ ".json".

(** [df.empty] *)
Definition df_empty {num} (df : DataFrame num) : bool :=
  match records df with [] => true | _ => false end.

(** ['timestamp' in df.columns] *)
Definition has_timestamp {num} (df : DataFrame num) : bool :=
  match ts_column df with NoTimestampColumn => false | _ => true end.

(** ** pandas datetime indexes *)

Record DatetimeIndex := mkIndex {
  tz_aware : bool;
  stamps : list Z
}.

Definition seconds_per_day : Z := 86400.

(** [pd.date_range(start=d1, end=d2, freq='D')] on two dates: the naive
    midnights of the days [d1 .. d2], both ends included; empty when
    [d2 < d1]. *)
Definition date_range_D (d1 d2 : Z) : DatetimeIndex :=
  mkIndex false (map (fun d => d * seconds_per_day) (seqZ d1 (d2 - d1 + 1))).

(** [index.normalize()]: every stamp is moved back to the midnight of its
    day, in the index's own timezone (UTC for a frame read from JSON). *)
Definition normalize (ix : DatetimeIndex) : DatetimeIndex :=
  mkIndex (tz_aware ix)
          (map (fun t => t - t mod seconds_per_day) (stamps ix)).

(** [index.unique()] keeps the first occurrence of every stamp. *)
Fixpoint unique_stamps (seen l : list Z) : list Z :=
  match l with
  | [] => []
  | t :: l' =>
      if bool_decide (t ∈ seen) then unique_stamps seen l'
      else t :: unique_stamps (t :: seen) l'
  end.

Definition unique (ix : DatetimeIndex) : DatetimeIndex :=
  mkIndex (tz_aware ix) (unique_stamps [] (stamps ix)).

(** [a.difference(b)].  pandas compares the two indexes only when they are
    comparable, that is both tz-aware or both tz-naive; otherwise nothing
    can match and the difference is the whole of [a]. *)
Definition difference (a b : DatetimeIndex) : DatetimeIndex :=
  if Bool.eqb (tz_aware a) (tz_aware b)
  then mkIndex (tz_aware a)
         (filter (fun t => t ∉ stamps b) (stamps (unique a)))
  else unique a.

(** [ts.date()] of a naive midnight. *)
Definition date_of (t : Z) : Z := t `div` seconds_per_day.

(** ** Exact arithmetic of the percentage *)

Definition Qlt_bool (x y : Q) : bool := negb (Qle_bool y x).

(** Python's [min(a, b)]: [b] when [b < a], otherwise [a]. *)
Definition py_min (a b : Q) : Q := if Qlt_bool b a then b else a.

(** ** The local variables of one round of the report loop, and the monad
       of the [try] block *)

Inductive Status :=
| MissingFile      (* "Missing File" *)
| NoDataInRange    (* "No Data in Range" *)
| Complete         (* "Complete" *)
| Partial          (* "Partial" *)
| ErrorReading.    (* "Error Reading" *)

(** The text of the "Missing Info" column. *)
Inductive MissingInfo :=
| All                                   (* "All" *)
| NoneMissing                           (* "None" *)
| PartialHoursMissing                   (* "Partial hours missing" *)
| DaysList (days : list Z)              (* the dates, joined by ", " *)
| DaysCount (n : nat) (example : Z).    (* "<n> days missing (e.g. <date>...)" *)

Record Locals := mkLocals {
  status : Status;
  missing_days : MissingInfo;
  completeness : Q
}.

Inductive Outcome (A : Type) :=
| Returned (a : A)
| Raised.
Arguments Returned {A} a.
Arguments Raised {A}.

Definition Exec (A : Type) : Type := Locals -> Locals * Outcome A.

#[global] Instance Exec_ret : MRet Exec := fun A a s => (s, Returned a).

#[global] Instance Exec_bind : MBind Exec := fun A B k m s =>
  match m s with
  | (s', Returned a) => k a s'
  | (s', Raised) => (s', Raised)
  end.

Definition raise {A} : Exec A := fun s => (s, Raised).

Definition set_status (v : Status) : Exec unit :=
  fun s => (mkLocals v (missing_days s) (completeness s), Returned tt).

Definition set_missing_days (v : MissingInfo) : Exec unit :=
  fun s => (mkLocals (status s) v (completeness s), Returned tt).

Definition set_completeness (v : Q) : Exec unit :=
  fun s => (mkLocals (status s) (missing_days s) v, Returned tt).

Definition get_completeness : Exec Q :=
  fun s => (s, Returned (completeness s)).

(** [try: body  except Exception: status = "Error Reading"] *)
Definition try_except (body : Exec unit) : Locals -> Locals :=
  fun s => match body s with
           | (s', Returned _) => s'
           | (s', Raised) => mkLocals ErrorReading (missing_days s') (completeness s')
           end.

(** ** The operations of the [try] block that can raise *)

(** [pd.read_json(filename)] *)
Definition read_json {num} (c : FileContent num) : Exec (DataFrame num) :=
  match c with
  | BadJson => raise
  | Json df => mret df
  end.

(** [pd.to_datetime(df['timestamp'])] followed by [set_index]. *)
Definition to_datetime_index {num} (df : DataFrame num) : Exec DatetimeIndex :=
  match ts_column df with
  | TzAware => mret (mkIndex true (map fst (records df)))
  | TzNaive => mret (mkIndex false (map fst (records df)))
  | _ => raise
  end.

(** [index >= ts] and [index <= ts] against a tz-aware [ts]: a [TypeError]
    on a tz-naive index. *)
Definition ge_mask (ix : DatetimeIndex) (ts : Z) : Exec (list bool) :=
  if tz_aware ix then mret (map (fun t => ts <=? t) (stamps ix)) else raise.

Definition le_mask (ix : DatetimeIndex) (ts : Z) : Exec (list bool) :=
  if tz_aware ix then mret (map (fun t => t <=? ts) (stamps ix)) else raise.

(** [df.loc[m1 & m2]], on the index. *)
Fixpoint loc (l : list Z) (m1 m2 : list bool) : list Z :=
  match l, m1, m2 with
  | t :: l', b1 :: m1', b2 :: m2' =>
      if b1 && b2 then t :: loc l' m1' m2' else loc l' m1' m2'
  | _, _, _ => []
  end.

(** [a / b] on two Python integers. *)
Definition py_truediv (a b : Z) : Exec Q :=
  if b =? 0 then raise else mret (inject_Z a / inject_Z b)%Q.

(** ** [get_flow_data] (shared by the flow views) *)

Definition initial : Locals := mkLocals MissingFile All 0.

(** The body of the [try] of [get_flow_data]; [None] stands for falling out
    of the [if] to the final [return None].  The function has no locals of
    its own: it runs in the same monad and leaves the state alone. *)
Definition get_flow_data_try {num} (c : FileContent num)
  : Exec (option (DataFrame num)) :=
  df ← read_json c;
  if negb (df_empty df) && has_timestamp df then
    _ ← to_datetime_index df;
    mret (Some df)
  else mret None.

(** The [except] clause reports the error on the page and the function
    returns [None]: every failure is the value [None]. *)
Definition get_flow_data {num} (fs : FileSystem num) (code_from code_to : string)
  : option (DataFrame num) :=
  match fs (flow_filename code_from code_to) with
  | None => None
  | Some c =>
      match get_flow_data_try c initial with
      | (_, Returned r) => r
      | (_, Raised) => None
      end
  end.

(** ** The "Missing Data Analysis" view *)

Record ReportEntry := mkEntry {
  From_ : string;
  To_ : string;
  Status_ : Status;
  Completeness_ : Q;          (* shown with one decimal and a percent sign *)
  MissingInfo_ : MissingInfo
}.

Section CompletenessAuditor.
Context {num : Type}.

(** [pd.Timestamp(d).tz_localize('Europe/Brussels')]: the instant at which
    the day [d] begins in Brussels. *)
Variable tz_localize : Z -> Z.

(** The text built from [missing], the index of the missing days. *)
Definition describe_missing (missing : DatetimeIndex) : MissingInfo :=
  match stamps missing with
  | [] => PartialHoursMissing
  | first :: _ =>
      if (10 <? length (stamps missing))%nat
      then DaysCount (length (stamps missing)) (date_of first)
      else DaysList (map date_of (stamps missing))
  end.

(** The body of the [try] block, lines 257 to 293. *)
Definition audit_try (c : FileContent num) (start_check end_check : Z)
  : Exec unit :=
  df ← read_json c;
  if negb (df_empty df) && has_timestamp df then
    ix ← to_datetime_index df;
    m1 ← ge_mask ix (tz_localize start_check);
    m2 ← le_mask ix (tz_localize end_check);
    let df_range := mkIndex (tz_aware ix) (loc (stamps ix) m1 m2) in
    let actual_count := Z.of_nat (length (stamps df_range)) in
    if actual_count =? 0 then set_status NoDataInRange
    else
      q ← py_truediv actual_count ((end_check - start_check) * 24);
      set_completeness (q * 100)%Q;;
      c1 ← get_completeness;
      set_completeness (py_min 100 c1);;
      c2 ← get_completeness;
      if Qlt_bool 99 c2 then
        set_status Complete;;
        set_missing_days NoneMissing
      else
        set_status Partial;;
        let all_days := date_range_D start_check end_check in
        let present_days := unique (normalize df_range) in
        let missing := difference all_days present_days in
        set_missing_days (describe_missing missing)
  else mret tt.

(** One round of the loop over the pairs, up to the [append]. *)
Definition audit (fs : FileSystem num) (code_from code_to : string)
    (start_check end_check : Z) : Locals :=
  match fs (flow_filename code_from code_to) with
  | None => initial
  | Some c => try_except (audit_try c start_check end_check) initial
  end.

Definition report_entry (fs : FileSystem num) (code_from code_to : string)
    (start_check end_check : Z) : ReportEntry :=
  let r := audit fs code_from code_to start_check end_check in
  mkEntry code_from code_to (status r) (completeness r) (missing_days r).

(** [report_data] after the two loops. *)
Definition report (countries : list Country) (fs : FileSystem num)
    (start_check end_check : Z) : list ReportEntry :=
  country ← countries;
  code_to ← neighbors country;
  [report_entry fs (code country) code_to start_check end_check].

(** The stamps of the records of a frame that lie in the window. *)
Definition in_window (df : DataFrame num) (start_check end_check : Z) : list Z :=
  filter (fun t => tz_localize start_check <= t <= tz_localize end_check)
         (map fst (records df)).
End CompletenessAuditor.

(** A winter clock: Brussels is one hour ahead of UTC. *)
Definition brussels_winter (d : Z) : Z := d * seconds_per_day - 3600.

(** Hourly records from the instant [t0] on, with flow [v]. *)
Definition hourly {num} (v : num) (t0 : Z) (n : nat) : list (Z * num) :=
  map (fun k => (t0 + Z.of_nat k * 3600, v)) (seq 0 n).

Definition one_file {num} (code_from code_to : string) (c : FileContent num)
  : FileSystem num :=
  fun f => if String.eqb f (flow_filename code_from code_to) then Some c else None.

(** ** The "Country Total" view *)

(** [s.empty] *)
Definition series_empty {num} (s : gmap Z num) : bool :=
  match map_to_list s with [] => true | _ => false end.

(** [df['flow']] of a frame indexed by its timestamps.  A series is a finite
    map: it is the column of a frame with one record per timestamp.  pandas
    keeps every row of a frame that repeats a timestamp; what is proved of
    the values of the balance table asks for file systems without such
    frames ([one_record_per_timestamp]). *)
Definition flow {num} (df : DataFrame num) : gmap Z num :=
  list_to_map (records df).


(** The balance table: three columns over one index. *)
Record BalanceTable (num : Type) := mkTable {
  Imports : gmap Z num;
  Exports : gmap Z num;
  NetFlow : gmap Z num
}.
Arguments mkTable {num} _ _ _.
Arguments Imports {num} _.
Arguments Exports {num} _.
Arguments NetFlow {num} _.

(** What the view shows: the warning of the last branch, and the table with
    its net flow when [combined] is not empty. *)
Record BalanceView (num : Type) := mkView {
  warning : bool;
  table : option (BalanceTable num)
}.
Arguments mkView {num} _ _.
Arguments warning {num} _.
Arguments table {num} _.

Section BalanceCalculator.
Context {num : Type}.

(** The float arithmetic the view relies on: [0], NaN, [isna], [+], [-]. *)
Variables (zero nan : num) (isna : num -> bool) (add sub : num -> num -> num).

(** The value pandas sees at [t] once a series is aligned to a larger
    index: NaN where the series has no entry. *)
Definition aligned (x : option num) : num := default nan x.

(** [fill_value=0]: a NaN facing a number is replaced by [0]; two NaN are
    left alone. *)
Definition fill (x other : num) : num :=
  if isna x && negb (isna other) then zero else x.

(** [a.add(b, fill_value=0)], over the union of the two indexes. *)
Definition add_fill (a b : gmap Z num) : gmap Z num :=
  merge (fun x y =>
           match x, y with
           | None, None => None
           | _, _ => Some (add (fill (aligned x) (aligned y))
                               (fill (aligned y) (aligned x)))
           end) a b.

(** The body of both loops once a frame is loaded: the first series is
    taken as it is, the next ones are added to the running sum. *)
Definition accumulate_series (acc s : gmap Z num) : gmap Z num :=
  if series_empty acc then s else add_fill acc s.

Definition accumulate (acc : gmap Z num) (loaded : option (DataFrame num))
  : gmap Z num :=
  match loaded with
  | Some df => accumulate_series acc (flow df)
  | None => acc
  end.

(** [next(c for c in countries if c['code'] == target_code)] *)
Definition target_data (countries : list Country) (target_code : string)
  : option Country :=
  find (fun c => String.eqb (code c) target_code) countries.

(** EXPORTS: target -> neighbor *)
Definition exports_loop (fs : FileSystem num) (target_code : string)
    (target : Country) : gmap Z num :=
  foldl (fun acc neighbor => accumulate acc (get_flow_data fs target_code neighbor))
        ∅ (neighbors target).

(** IMPORTS: neighbor -> target, over who lists the target as neighbor *)
Definition imports_loop (fs : FileSystem num) (target_code : string)
    (countries : list Country) : gmap Z num :=
  foldl (fun acc c =>
           if bool_decide (target_code ∈ neighbors c)
           then accumulate acc (get_flow_data fs (code c) target_code)
           else acc)
        ∅ countries.

(** A column of [pd.DataFrame({...})]: the series over the union of the
    two indexes, NaN where it has no entry. *)
Definition reindex (s other : gmap Z num) : gmap Z num :=
  merge (fun x y =>
           match x, y with
           | None, None => None
           | _, _ => Some (aligned x)
           end) s other.

(** [combined.fillna(0)] on one column *)
Definition fillna (s : gmap Z num) : gmap Z num :=
  (fun x => if isna x then zero else x) <$> s.

(** [combined['Exports'] - combined['Imports']] *)
Definition series_sub (a b : gmap Z num) : gmap Z num :=
  merge (fun x y =>
           match x, y with
           | None, None => None
           | _, _ => Some (sub (aligned x) (aligned y))
           end) a b.

(** "Align dates": the two columns of [combined], and whether the warning
    was shown. *)
Definition combine (imports exports : gmap Z num)
  : bool * (gmap Z num * gmap Z num) :=
  if negb (series_empty imports) && negb (series_empty exports) then
    (false, (reindex imports exports, reindex exports imports))
  else if negb (series_empty imports) then
    (false, (imports, (fun _ => zero) <$> imports))
  else if negb (series_empty exports) then
    (false, ((fun _ => zero) <$> exports, exports))
  else (true, (∅, ∅)).

(** The view, from the two loops to the net flow; [None] when the target
    is not a country of the topology ([next] raises). *)
Definition country_total (fs : FileSystem num) (countries : list Country)
    (target_code : string) : option (BalanceView num) :=
  match target_data countries target_code with
  | None => None
  | Some target =>
      let exports := exports_loop fs target_code target in
      let imports := imports_loop fs target_code countries in
      let '(warned, (imp, exp)) := combine imports exports in
      if negb (series_empty imp) then
        let imp := fillna imp in
        let exp := fillna exp in
        Some (mkView warned (Some (mkTable imp exp (series_sub exp imp))))
      else Some (mkView warned None)
  end.

(** The series the two loops load, in loop order. *)
Definition export_series (fs : FileSystem num) (target_code : string)
    (target : Country) : list (gmap Z num) :=
  omap (fun neighbor => flow <$> get_flow_data fs target_code neighbor)
       (neighbors target).

Definition import_series (fs : FileSystem num) (target_code : string)
    (countries : list Country) : list (gmap Z num) :=
  omap (fun c => flow <$> get_flow_data fs (code c) target_code)
       (filter (fun c => target_code ∈ neighbors c) countries).

(** The aligned sum of a list of series, as the loops build it. *)
Definition aligned_sum (l : list (gmap Z num)) : gmap Z num :=
  foldl accumulate_series ∅ l.

(** The union of the indexes of a list of series. *)
Definition index_union (l : list (gmap Z num)) : gset Z :=
  ⋃ (dom <$> l).

(** A value with NaN read as [0]. *)
Definition nan_to_zero (x : num) : num := if isna x then zero else x.

(** The sum [c1 + c2 + ... + cn] of the contributions to a label at one
    timestamp, in the order of the loop, with NaN read as [0] wherever it
    meets the sum.  A series without the timestamp contributes a gap, which
    reads as NaN; the sum of no contribution is [0]. *)
Definition nan_as_zero_sum (contributions : list (option num)) : num :=
  match contributions with
  | [] => zero
  | c :: cs =>
      nan_to_zero
        (foldl (fun a c' => add (nan_to_zero a) (nan_to_zero (aligned c')))
               (aligned c) cs)
  end.

(** The value of a column of the table at a timestamp of its index: [0]
    for the column that stands for no series at all, otherwise the entry of
    the series with NaN and gaps turned into [0]. *)
Definition column_value (s : gmap Z num) (t : Z) : num :=
  if series_empty s then zero
  else nan_to_zero (aligned (s !! t)).
End BalanceCalculator.

(** Two instances of the arithmetic: binary64, and exact integers with a
    NaN. *)
Definition country_total_f64 :=
  country_total (num := float) 0%float PrimFloat.nan PrimFloat.is_nan
                PrimFloat.add PrimFloat.sub.

Definition xadd (x y : option Z) : option Z :=
  match x, y with Some a, Some b => Some (a + b) | _, _ => None end.
Definition xsub (x y : option Z) : option Z :=
  match x, y with Some a, Some b => Some (a - b) | _, _ => None end.
Definition xisna (x : option Z) : bool :=
  match x with None => true | Some _ => false end.

Definition country_total_exact :=
  country_total (num := option Z) (Some 0) None xisna xadd xsub.

(** A small topology: Bulgaria lists Romania and Greece, Romania lists none. *)
Definition BG : Country := mkCountry "BG" "Bulgaria" ["RO"; "GR"].
Definition RO : Country := mkCountry "RO" "Romania" [].
Definition GR : Country := mkCountry "GR" "Greece" ["BG"].
Definition balkans : list Country := [BG; RO; GR].

(** ** Consolidation of ingested observations *)

Definition ascending {num} (l : list (Z * num)) : Prop :=
  StronglySorted (fun r1 r2 => fst r1 <= fst r2) l.

Definition strictly_ascending {num} (l : list (Z * num)) : Prop :=
  StronglySorted (fun r1 r2 => fst r1 < fst r2) l.

(** The flow a frame shows first, and last, for a timestamp. *)
Definition first_flow {num} (t : Z) (l : list (Z * num)) : option num :=
  snd <$> find (fun r => fst r =? t) l.

Definition last_flow {num} (t : Z) (l : list (Z * num)) : option num :=
  first_flow t (rev l).

Section Ingestion.
Context {num : Type}.

(** [df.sort_values('timestamp')].  pandas sorts with quicksort unless told
    otherwise and promises no order among rows with equal timestamps: the
    sort is a parameter, and the properties below ask of it only that it
    permutes the rows into ascending order. *)
Variable sort_values : list (Z * num) -> list (Z * num).

(** [df.drop_duplicates(subset=['timestamp'])]: the default keeps, of the
    rows with one timestamp, the first. *)
Fixpoint drop_duplicates_seen (seen : list Z) (l : list (Z * num))
  : list (Z * num) :=
  match l with
  | [] => []
  | r :: l' =>
      if bool_decide (fst r ∈ seen) then drop_duplicates_seen seen l'
      else r :: drop_duplicates_seen (fst r :: seen) l'
  end.

Definition drop_duplicates (l : list (Z * num)) : list (Z * num) :=
  drop_duplicates_seen [] l.

(** [df.drop_duplicates(subset=['timestamp'], keep='last')] *)
Fixpoint drop_duplicates_keep_last (l : list (Z * num)) : list (Z * num) :=
  match l with
  | [] => []
  | r :: l' =>
      if bool_decide (fst r ∈ map fst l') then drop_duplicates_keep_last l'
      else r :: drop_duplicates_keep_last l'
  end.

(** [fetch_data], "Consolidate and Save", for one pair: the frames of the
    months in the order in which they were collected; [None] when nothing
    was fetched and no file is written. *)
Definition fetch_data (df_list : list (list (Z * num)))
  : option (list (Z * num)) :=
  match df_list with
  | [] => None
  | _ => Some (drop_duplicates (sort_values (concat df_list)))
  end.

(** What [import_csv] writes for one pair: [group] holds the rows of the
    CSV for the pair in file order, [existing] the file already there.
    The outer [option] is [None] when the script stops on an exception
    that [except ValueError] does not catch (stamps with and without a
    timezone cannot be ordered). *)
Definition import_csv (existing : option (FileContent num))
    (group : list (Z * num)) : option (list (Z * num)) :=
  let new_data := sort_values group in
  match existing with
  | None => Some new_data
  | Some BadJson => Some new_data
  | Some (Json existing_df) =>
      if negb (df_empty existing_df) then
        match ts_column existing_df with
        | NoTimestampColumn => Some new_data
        | Unparsable => Some new_data
        | TzNaive => None
        | TzAware =>
            let combined_df := records existing_df ++ new_data in
            Some (sort_values (drop_duplicates_keep_last combined_df))
        end
      else Some new_data
  end.
End Ingestion.

(** A sort that keeps the order of rows with equal timestamps. *)
Fixpoint insert_row {num} (r : Z * num) (l : list (Z * num))
  : list (Z * num) :=
  match l with
  | [] => [r]
  | y :: l' => if fst r <=? fst y then r :: l else y :: insert_row r l'
  end.

Definition insertion_sort {num} (l : list (Z * num)) : list (Z * num) :=
  foldr insert_row [] l.


(** A file system given by the list of its files. *)
Definition file_system {num} (files : list (string * string * FileContent num))
  : FileSystem num :=
  fun f =>
    snd <$> find (fun e => String.eqb f (flow_filename (fst (fst e)) (snd (fst e))))
                 files.

(** Three files with exact flows: Bulgaria to Romania has a NaN in its
    second hour, Bulgaria to Greece starts one hour later, Greece to
    Bulgaria has a single hour. *)
Definition three_files : FileSystem (option Z) :=
  file_system
    [("BG", "RO", Json (mkDataFrame TzAware [(0, Some 5); (3600, None)]));
     ("BG", "GR", Json (mkDataFrame TzAware [(3600, Some 2); (7200, Some 3)]));
     ("GR", "BG", Json (mkDataFrame TzAware [(0, Some 7)]))].

(** The same three files in binary64. *)
Definition three_files_f64 : FileSystem float :=
  file_system
    [("BG", "RO", Json (mkDataFrame TzAware
                          [(0, 5%float); (3600, PrimFloat.nan)]));
     ("BG", "GR", Json (mkDataFrame TzAware
                          [(3600, 2%float); (7200, 3%float)]));
     ("GR", "BG", Json (mkDataFrame TzAware [(0, 7%float)]))].

(** Two binary64 files whose flows in the first hour are the two
    infinities. *)
Definition opposite_infinities : FileSystem float :=
  file_system
    [("BG", "RO", Json (mkDataFrame TzAware [(0, PrimFloat.infinity)]));
     ("BG", "GR", Json (mkDataFrame TzAware
                          [(0, PrimFloat.neg_infinity); (3600, 2%float)]))].

(** One binary64 file whose two flows are NaN (null in the JSON). *)
Definition nan_file : FileSystem float :=
  one_file "BG" "RO"
    (Json (mkDataFrame TzAware [(0, PrimFloat.nan); (3600, PrimFloat.nan)])).

(** Scenario 1 of the specification, in binary64: A exports 100 MW to B in
    each of the 24 hours of a day, C also lists B but has no file, and B
    lists nobody. *)
Definition scenario_1_countries : list Country :=
  [mkCountry "A" "Aland" ["B"]; mkCountry "B" "Bland" [];
   mkCountry "C" "Cland" ["B"]].

Definition scenario_1_files : FileSystem float :=
  one_file "A" "B" (Json (mkDataFrame TzAware (hourly 100%float 0 24))).

(** ** The edges of the topology, and the selectors of the sidebar *)

(** The directed pairs in the order of the two nested loops over the
    countries and their neighbours. *)
Definition edges (countries : list Country) : list (string * string) :=
  country ← countries;
  code_to ← neighbors country;
  [(code country, code_to)].

(** A Python [dict] of strings: its items in insertion order.  Assigning to
    a key that is present replaces the value and leaves the key where it
    is. *)
Fixpoint dict_set (k v : string) (d : list (string * string))
  : list (string * string) :=
  match d with
  | [] => [(k, v)]
  | (k', v') :: d' =>
      if String.eqb k' k then (k', v) :: d' else (k', v') :: dict_set k v d'
  end.

(** [d.get(k)] *)
Definition dict_get (k : string) (d : list (string * string)) : option string :=
  snd <$> find (fun kv => String.eqb (fst kv) k) d.

(** [{c['name']: c['code'] for c in countries}] *)
Definition country_map (countries : list Country) : list (string * string) :=
  foldl (fun d c => dict_set (name c) (code c) d) [] countries.

(** [{c['code']: c['name'] for c in countries}] *)
Definition code_map (countries : list Country) : list (string * string) :=
  foldl (fun d c => dict_set (code c) (name c) d) [] countries.

(** [code_map.get(n, n)], the text of one option of the "To Country" box. *)
Definition neighbor_option (countries : list Country) (n : string) : string :=
  default n (dict_get n (code_map countries)).

(** [next((k for k, v in code_map.items() if v == to_country_name),
    to_country_name)] *)
Definition to_country_code (countries : list Country) (to_country_name : string)
  : string :=
  default to_country_name
    (fst <$> find (fun kv => String.eqb (snd kv) to_country_name)
                  (code_map countries)).

(** ** Area strings of the CSV export *)

Fixpoint has_char (c : Ascii.ascii) (s : string) : bool :=
  match s with
  | EmptyString => false
  | String a s' => Ascii.eqb a c || has_char c s'
  end.

(** [sub in s] *)
Fixpoint contains (sub s : string) : bool :=
  String.prefix sub s
  || match s with
     | EmptyString => false
     | String _ s' => contains sub s'
     end.

(** [s.split(c)]: the pieces between the occurrences of [c], one more than
    there are occurrences. *)
Fixpoint split_char (c : Ascii.ascii) (s : string) : list string :=
  match s with
  | EmptyString => [EmptyString]
  | String a s' =>
      if Ascii.eqb a c then EmptyString :: split_char c s'
      else match split_char c s' with
           | piece :: pieces => String a piece :: pieces
           | [] => [String a EmptyString]
           end
  end.

(** [extract_country_code] of [import_csv.py]; [None] is the [IndexError]
    of [split('|')[1]]. *)
Definition extract_country_code (area_str : string) : option string :=
  if contains "BZN|" area_str then split_char "|"%char area_str !! 1%nat
  else Some area_str.

(** ** The monthly requests of [fetch_data] *)

Section FetchPeriods.
(** [current + pd.offsets.MonthBegin(1)]: the begin of the month after the
    one [current] lies in. *)
Variable next_month : Z -> Z.

(** The [while] loop that builds [periods].  The fuel bounds the number of
    rounds; [None] means that it ran out before the loop ended. *)
Fixpoint periods_loop (fuel : nat) (full_end current : Z)
  : option (list (Z * Z)) :=
  if current <? full_end then
    match fuel with
    | O => None
    | S fuel' =>
        let next := next_month current in
        let period_end := if full_end <? next then full_end else next in
        cons (current, period_end) <$> periods_loop fuel' full_end next
    end
  else Some [].

(** Periods that follow one another from [a] and end at [b]. *)
Fixpoint tiling (a b : Z) (periods : list (Z * Z)) : Prop :=
  match periods with
  | [] => b <= a
  | (x, y) :: periods' => x = a /\ a < y /\ y <= b /\ tiling y b periods'
  end.
End FetchPeriods.

Section FetchStore.
Context {num : Type}.

(** [fetch_flow_for_month] for one pair and one period: the frame, or
    [None] when the request fails or brings nothing. *)
Variable fetch_flow_for_month :
  string -> string -> Z * Z -> option (list (Z * num)).

(** "Initialize data store keys" *)
Definition init_data_store (countries : list Country)
  : gmap (string * string) (list (list (Z * num))) :=
  foldl (fun store e => <[e := []]> store) ∅ (edges countries).

(** "Collect results for this month": the futures in the order in which
    they complete. *)
Definition collect_month (store : gmap (string * string) (list (list (Z * num))))
    (completed : list (string * string)) (period : Z * Z)
  : gmap (string * string) (list (list (Z * num))) :=
  foldl (fun store e =>
           match fetch_flow_for_month (fst e) (snd e) period with
           | Some df => alter (fun df_list => df_list ++ [df]) e store
           | None => store
           end)
        store completed.

(** "Loop over periods": each period comes with the order in which its
    futures completed. *)
Definition collect_all (countries : list Country)
    (months : list (list (string * string) * (Z * Z)))
  : gmap (string * string) (list (list (Z * num))) :=
  foldl (fun store m => collect_month store (fst m) (snd m))
        (init_data_store countries) months.
End FetchStore.

(** "Consolidate and Save" for one key of the data store: the records
    written to the file of the pair, [None] when the pair is no key or has
    no frame ("No data found"). *)
Definition fetch_save {num} (sort_values : list (Z * num) -> list (Z * num))
    (store : gmap (string * string) (list (list (Z * num))))
    (e : string * string) : option (list (Z * num)) :=
  df_list ← store !! e; fetch_data sort_values df_list.

(** A month of thirty days, for the examples. *)
Definition thirty_days (t : Z) : Z := (t `div` 2592000 + 1) * 2592000.

(** ** Date filter and aggregations of the flow views *)

(** [df.index.min()] and [df.index.max()]; [None] on an empty index. *)
Definition index_min {num} (rows : list (Z * num)) : option Z :=
  match rows with
  | [] => None
  | r :: rows' => Some (foldr Z.min (fst r) (map fst rows'))
  end.

Definition index_max {num} (rows : list (Z * num)) : option Z :=
  match rows with
  | [] => None
  | r :: rows' => Some (foldr Z.max (fst r) (map fst rows'))
  end.

(** [df.loc[(df.index.date >= start_date) & (df.index.date <= end_date)]] *)
Definition date_mask {num} (start_date end_date : Z) (rows : list (Z * num))
  : list (Z * num) :=
  filter (fun r => start_date <= date_of (fst r) <= end_date) rows.

Section Aggregator.
Context {num : Type}.

(** The calendar of one aggregation period ('D', 'ME' or 'YE'): the number
    of the period a timestamp lies in, and the timestamp that labels a
    period.  [agg] is the aggregate pandas computes from the values of one
    bin ([sum]). *)
Variables (period_of label : Z -> Z) (agg : list num -> num).

(** The values of the rows of one period, in the order of the sorted
    index. *)
Definition bin (rows : list (Z * num)) (p : Z) : list num :=
  map snd (filter (fun r => period_of (fst r) = p) (insertion_sort rows)).

(** [df.resample(freq).sum()]: one row for every period from that of the
    first timestamp to that of the last, the periods without row
    included. *)
Definition resample (rows : list (Z * num)) : list (Z * num) :=
  match index_min rows, index_max rows with
  | Some lo, Some hi =>
      map (fun p => (label p, agg (bin rows p)))
          (seqZ (period_of lo) (period_of hi - period_of lo + 1))
  | _, _ => []
  end.
End Aggregator.

(** [index.hour] *)
Definition hour_of (t : Z) : Z := (t `div` 3600) `mod` 24.

(** [df.groupby(df.index.hour)['flow'].mean()]: one row for every hour of
    the day that has a row, in ascending order; [mean] is the mean pandas
    computes from the values of one group. *)
Definition hourly_profile {num} (mean : list num -> num) (rows : list (Z * num))
  : list (Z * num) :=
  let keyed := map (fun r => (hour_of (fst r), snd r)) rows in
  map (fun h => (h, mean (map snd (filter (fun r => fst r = h) keyed))))
      (map fst (drop_duplicates (insertion_sort keyed))).

(** The daily calendar, and the sum of exact flows. *)
Definition day_label (d : Z) : Z := d * seconds_per_day.
Definition zsum (l : list Z) : Z := foldr Z.add 0 l.

(** ** The CSV import script *)

(** A row of the CSV export as the script meets it.  [parse_mtu] rests on a
    regular expression, on the date parser and on the timezone database and
    is not modelled: [MTU] is what it returns for the cell, with [None] for
    both [None] and [NaT].  An area cell that holds no text (an empty cell
    is read as NaN) is [None].  [Physical_Flow] is what [pd.to_numeric]
    with [errors='coerce'] makes of the cell, with [None] for NaN. *)
Record CsvRow (num : Type) := mkCsvRow {
  MTU : option Z;
  Out_Area : option string;
  In_Area : option string;
  Physical_Flow : option num
}.
Arguments mkCsvRow {num} _ _ _ _.
Arguments MTU {num} _.
Arguments Out_Area {num} _.
Arguments In_Area {num} _.
Arguments Physical_Flow {num} _.

(** The file at [csv_path]: not there, rejected by [pd.read_csv], or a
    table with its column names. *)
Inductive CsvFile (num : Type) :=
| CsvAbsent
| CsvUnreadable
| CsvTable (columns : list string) (rows : list (CsvRow num)).
Arguments CsvAbsent {num}.
Arguments CsvUnreadable {num}.
Arguments CsvTable {num} columns rows.

Definition required_columns : list string :=
  ["MTU"; "Out Area"; "In Area"; "Physical Flow (MW)"].

(** The order of the keys [(from_code, to_code)] of a [groupby]: tuples
    compare by their first component, then by their second. *)
Definition key_leb (k1 k2 : string * string) : bool :=
  match String.compare (fst k1) (fst k2) with
  | Lt => true
  | Eq => String.leb (snd k1) (snd k2)
  | Gt => false
  end.

Definition key_le (k1 k2 : string * string) : Prop := key_leb k1 k2 = true.

#[global] Instance key_le_dec (k1 k2 : string * string)
  : Decision (key_le k1 k2) := decide (key_leb k1 k2 = true).

(** No stored file with records has stamps without a timezone. *)
Definition no_naive_file {num} (fs : FileSystem num) : Prop :=
  forall f df, fs f = Some (Json df) -> ts_column df = TzNaive -> records df = [].

Section ImportScript.
Context {num : Type}.
Variable sort_values : list (Z * num) -> list (Z * num).

(** [df['MTU'].apply(parse_mtu)] and [df.dropna(subset=['timestamp'])] *)
Definition with_timestamp (rows : list (CsvRow num)) : list (Z * CsvRow num) :=
  omap (fun r => timestamp ← MTU r; Some (timestamp, r)) rows.

(** [extract_country_code] on a cell: ['BZN|' in area_str] raises a
    [TypeError] on a cell that holds no text. *)
Definition area_code (cell : option string) : option string :=
  cell ≫= extract_country_code.

(** The columns [from_code] and [to_code]; [None] when a call raises, which
    nothing catches. *)
Definition with_codes (rows : list (Z * CsvRow num))
  : option (list (string * string * (Z * option num))) :=
  mapM (fun tr =>
          from_code ← area_code (Out_Area (snd tr));
          to_code ← area_code (In_Area (snd tr));
          Some (from_code, to_code, (fst tr, Physical_Flow (snd tr))))
       rows.

(** [df.dropna(subset=['flow'])] *)
Definition with_flow (rows : list (string * string * (Z * option num)))
  : list (string * string * (Z * num)) :=
  omap (fun r => flow ← snd (snd r); Some (fst r, (fst (snd r), flow))) rows.

(** "Pre-process data", lines 56 to 66. *)
Definition clean_rows (rows : list (CsvRow num))
  : option (list (string * string * (Z * num))) :=
  with_flow <$> with_codes (with_timestamp rows).

(** [df.groupby(['from_code', 'to_code'])]: the keys in ascending order,
    the rows of a group in the order of the frame. *)
Definition group_keys (df : list (string * string * (Z * num)))
  : list (string * string) :=
  merge_sort key_le (remove_dups (map fst df)).

Definition get_group (key : string * string)
    (df : list (string * string * (Z * num))) : list (Z * num) :=
  map snd (filter (fun r => fst r = key) df).

(** [combined_df.to_json(filename, orient='records', date_format='iso')]:
    the stamps are written with their offset to UTC and have a timezone
    when they are read back. *)
Definition to_json (fs : FileSystem num) (filename : string)
    (combined_df : list (Z * num)) : FileSystem num :=
  fun f =>
    if String.eqb f filename then Some (Json (mkDataFrame TzAware combined_df))
    else fs f.

(** One round of the loop over the groups.  The state is the file system
    and whether the script is still running: an exception that nothing
    catches ends it, and the files written before stay. *)
Definition save_group (df : list (string * string * (Z * num)))
    (state : FileSystem num * bool) (key : string * string)
  : FileSystem num * bool :=
  if snd state then
    let filename := flow_filename (fst key) (snd key) in
    match import_csv sort_values (fst state filename) (get_group key df) with
    | Some combined_df => (to_json (fst state) filename combined_df, true)
    | None => (fst state, false)
    end
  else state.

(** [import_csv(csv_path)] as a whole: the file system it leaves, and
    [true] when it returns, [false] when it ends on an exception. *)
Definition import_csv_file (fs : FileSystem num) (csv : CsvFile num)
  : FileSystem num * bool :=
  match csv with
  | CsvAbsent => (fs, true)
  | CsvUnreadable => (fs, true)
  | CsvTable columns rows =>
      if forallb (fun col => bool_decide (col ∈ columns)) required_columns then
        match clean_rows rows with
        | Some df => foldl (save_group df) (fs, true) (group_keys df)
        | None => (fs, false)
        end
      else (fs, true)
  end.
End ImportScript.

(** A row that names a pair, with its timestamp and its flow. *)
Definition usable_row {num} (r : CsvRow num) : Prop :=
  is_Some (MTU r) /\ is_Some (Physical_Flow r).

(** An export of five rows: one whose MTU cannot be parsed, one whose flow
    is "n/e", and three that can be used, for two pairs. *)
Definition export_columns : list string :=
  ["MTU"; "Out Area"; "In Area"; "Physical Flow (MW)"; "Area"].

Definition export_rows : list (CsvRow Z) :=
  [ mkCsvRow (Some 3600) (Some "BZN|BG") (Some "BZN|RO") (Some 120);
    mkCsvRow None (Some "BZN|BG") (Some "BZN|RO") (Some 7);
    mkCsvRow (Some 0) (Some "BZN|BG") (Some "BZN|RO") (Some 100);
    mkCsvRow (Some 0) (Some "BZN|RO") (Some "BZN|BG") None;
    mkCsvRow (Some 0) (Some "BZN|GR") (Some "BZN|BG") (Some 50) ].

Definition export_csv : CsvFile Z := CsvTable export_columns export_rows.

(** The same export with one more row, whose "Out Area" cell is empty. *)
Definition export_with_empty_area : CsvFile Z :=
  CsvTable export_columns
           (export_rows ++ [mkCsvRow (Some 7200) None (Some "BZN|BG") (Some 1)]).

(** Two pairs whose codes give one file name. *)
Definition export_shared_name : CsvFile Z :=
  CsvTable export_columns
           [ mkCsvRow (Some 0) (Some "A_B") (Some "C") (Some 1);
             mkCsvRow (Some 0) (Some "A") (Some "B_C") (Some 2);
             mkCsvRow (Some 3600) (Some "A") (Some "B_C") (Some 3) ].

Definition no_file : FileSystem Z := fun _ => None.

(** ** The dummy data *)

(** [pd.date_range(start=start, end=end, freq='h')] on two instants: every
    hour from [start] on, up to [end]. *)
Definition date_range_h (start end_ : Z) : list Z :=
  map (fun k => start + k * 3600) (seqZ 0 ((end_ - start) `div` 3600 + 1)).

(** The days of [pd.Timestamp('20230101')] and [pd.Timestamp('20240101')]. *)
Definition day_20230101 : Z := 19358.
Definition day_20240101 : Z := 19723.

Section DummyData.
Context {num : Type}.
(** The instant at which a day begins in Brussels. *)
Variable tz_localize : Z -> Z.
(** [np.random.uniform(0, 1000, size=n)]: the array of the call number [i]
    of the run. *)
Variable uniform : nat -> nat -> list num.

Definition dummy_dates : list Z :=
  date_range_h (tz_localize day_20230101) (tz_localize day_20240101).

(** One round of the inner loop.  The state is the file system and the
    number of arrays drawn so far. *)
Definition generate_pair (state : FileSystem num * nat)
    (pair : string * string) : FileSystem num * nat :=
  let flow := uniform (snd state) (length dummy_dates) in
  let df := zip dummy_dates flow in
  (to_json (fst state) (flow_filename (fst pair) (snd pair)) df,
   S (snd state)).

Definition generate_dummy_data (fs : FileSystem num)
    (countries : list Country) : FileSystem num :=
  fst (foldl generate_pair (fs, O) (edges countries)).
End DummyData.

(** ** Metrics of the "Country Total" view *)

(** The index of [filtered_combined]: the stamps of the table whose date
    lies in the range of the sidebar. *)
Definition filtered_index {num} (tb : BalanceTable num)
    (start_date end_date : Z) : list Z :=
  filter (fun t => start_date <= date_of t <= end_date)
         (elements (dom (Imports tb))).

Section BalanceMetrics.
Context {num : Type}.
Variables (zero nan : num) (isna : num -> bool) (add : num -> num -> num).

(** [filtered_combined[column].sum()]: the sum of the entries of a column
    over the index, NaN skipped, [0] for no row. *)
Definition column_sum (column : gmap Z num) (index : list Z) : num :=
  foldl (fun acc t =>
           let v := aligned nan (column !! t) in
           if isna v then acc else add acc v)
        zero index.
End BalanceMetrics.

(** ** The progress bar of the report *)

(** [sum(len(c['neighbors']) for c in countries)] *)
Definition total_pairs (countries : list Country) : Z :=
  foldl (fun acc c => acc + Z.of_nat (length (neighbors c))) 0 countries.

(** The end of one round of the loop over the pairs: [processed += 1] and
    [progress_bar.progress(processed / total_pairs)].  The state is the
    counter with the values the bar was given so far; [None] when the
    division raises. *)
Definition progress_round (total : Z) (state : Z * list Q)
  : option (Z * list Q) :=
  let processed := fst state + 1 in
  if total =? 0 then None
  else Some (processed,
             snd state ++ [(inject_Z processed / inject_Z total)%Q]).

Definition progress_loop (countries : list Country) : option (Z * list Q) :=
  foldl (fun state _ => state ≫= progress_round (total_pairs countries))
        (Some (0, [])) (edges countries).

(** * Properties *)

(** ** Auxiliary facts about the auditor *)

Lemma Qlt_bool_iff (x y : Q) : Qlt_bool x y = true <-> (x < y)%Q.
Proof.
  unfold Qlt_bool. rewrite negb_true_iff, <- not_true_iff_false, Qle_bool_iff.
  split; [apply Qnot_le_lt | apply Qlt_not_le].
Qed.

Lemma py_min_le (a b : Q) : (py_min a b <= a)%Q.
Proof.
  unfold py_min. destruct (Qlt_bool b a) eqn:E.
  - apply Qlt_le_weak, Qlt_bool_iff, E.
  - apply Qle_refl.
Qed.

Lemma py_min_gt (a b c : Q) :
  (c < a)%Q -> Qlt_bool c (py_min a b) = true <-> (c < b)%Q.
Proof.
  intros Hca. rewrite Qlt_bool_iff. unfold py_min.
  destruct (Qlt_bool b a) eqn:E; [reflexivity |].
  split; [| intros _; exact Hca].
  intros _. apply not_true_iff_false in E. rewrite Qlt_bool_iff in E.
  apply Qnot_lt_le in E. eapply Qlt_le_trans; eassumption.
Qed.

(** The percentage exceeds 99 exactly when a hundred observations outweigh
    ninety-nine expected hours. *)
Lemma percent_gt_99 (n h : Z) :
  0 < h ->
  (99 < inject_Z n / inject_Z h * 100)%Q <-> 99 * h < 100 * n.
Proof.
  intros Hh. destruct h as [| p | p]; try lia.
  unfold Qlt, Qdiv, Qmult, Qinv, inject_Z. simpl. lia.
Qed.

Lemma loc_masks (lo hi : Z) (l : list Z) :
  loc l (map (fun t => lo <=? t) l) (map (fun t => t <=? hi) l)
  = filter (fun t => lo <= t <= hi) l.
Proof.
  induction l as [| t l IH]; [reflexivity |].
  simpl. rewrite filter_cons, IH.
  destruct (Z.leb_spec lo t), (Z.leb_spec t hi); simpl;
    destruct (decide (lo <= t <= hi)); try reflexivity; lia.
Qed.

Lemma unique_stamps_nodup (seen l : list Z) :
  NoDup l -> (forall x, x ∈ l -> x ∉ seen) -> unique_stamps seen l = l.
Proof.
  intros Hnd. revert seen.
  induction Hnd as [| x l Hx Hnd IH]; intros seen Hseen; [reflexivity |].
  simpl. rewrite bool_decide_eq_false_2 by (apply Hseen; left).
  f_equal. apply IH. intros y Hy. apply not_elem_of_cons. split.
  - intros ->. contradiction.
  - apply Hseen. right. exact Hy.
Qed.

(** The days of a window are distinct: [unique] leaves them as they are. *)
Lemma unique_date_range (d1 d2 : Z) :
  unique (date_range_D d1 d2) = date_range_D d1 d2.
Proof.
  unfold unique, date_range_D. simpl. f_equal.
  apply unique_stamps_nodup; [| intros x _; apply not_elem_of_nil].
  assert (Hinj : Inj (=) (=) (fun d => d * seconds_per_day))
    by (intros x y Hxy; unfold seconds_per_day in Hxy; lia).
  apply (NoDup_fmap_2 (fun d => d * seconds_per_day)), NoDup_seqZ.
Qed.

Section AuditorFacts.
Context {num : Type}.
Variable tz_localize : Z -> Z.

(** What the audit of a non-empty frame with tz-aware stamps computes. *)
Lemma audit_aware (fs : FileSystem num) (a b : string) (s e : Z)
    (df : DataFrame num) :
  fs (flow_filename a b) = Some (Json df) ->
  ts_column df = TzAware ->
  records df <> [] ->
  audit tz_localize fs a b s e =
    let w := in_window tz_localize df s e in
    let n := Z.of_nat (length w) in
    let h := (e - s) * 24 in
    if n =? 0 then mkLocals NoDataInRange All 0
    else if h =? 0 then mkLocals ErrorReading All 0
    else
      let c := py_min 100 (inject_Z n / inject_Z h * 100)%Q in
      if Qlt_bool 99 c then mkLocals Complete NoneMissing c
      else mkLocals Partial
             (describe_missing
                (difference (date_range_D s e)
                   (unique (normalize (mkIndex true w))))) c.
Proof.
  intros Hfs Hts Hne. unfold audit. rewrite Hfs.
  destruct df as [tc recs]. simpl in Hts, Hne. subst tc.
  destruct recs as [| r recs]; [contradiction |].
  unfold try_except, audit_try, in_window.
  unfold mbind, mret, Exec_bind, Exec_ret.
  cbn -[filter map loc Z.of_nat Z.eqb Z.mul Z.sub py_min Qlt_bool Qmult Qdiv
        inject_Z difference date_range_D unique normalize describe_missing
        py_truediv].
  rewrite loc_masks.
  set (w := filter _ _).
  destruct (Z.of_nat (length w) =? 0) eqn:En; [reflexivity |].
  unfold py_truediv.
  destruct ((e - s) * 24 =? 0) eqn:Eh; [reflexivity |].
  unfold mret, Exec_ret.
  cbn -[filter map loc Z.of_nat Z.eqb Z.mul Z.sub py_min Qlt_bool Qmult Qdiv
        inject_Z difference date_range_D unique normalize describe_missing].
  destruct (Qlt_bool 99 _) eqn:Ec; reflexivity.
Qed.

(** Outside [Complete] and [Partial] the three locals are untouched,
    whatever the file holds. *)
Lemma audit_defaults (fs : FileSystem num) (a b : string) (s e : Z) :
  let r := audit tz_localize fs a b s e in
  status r <> Complete -> status r <> Partial ->
  completeness r = 0%Q /\ missing_days r = All.
Proof.
  destruct (fs (flow_filename a b)) as [[| df] |] eqn:Hfs;
    [unfold audit; rewrite Hfs; simpl; tauto | | unfold audit; rewrite Hfs; simpl; tauto].
  destruct (ts_column df) eqn:Hts, (records df) as [| r0 recs] eqn:Hrec;
    try (unfold audit; rewrite Hfs; destruct df; simpl in *; subst; simpl; tauto).
  rewrite (audit_aware fs a b s e df Hfs Hts) by (rewrite Hrec; discriminate).
  cbv zeta.
  destruct (_ =? 0); [simpl; tauto |].
  destruct (_ =? 0); [simpl; tauto |].
  destruct (Qlt_bool _ _); simpl; intros; congruence.
Qed.
End AuditorFacts.



(** ** The completeness report *)

Section AuditorClaims.
Context {num : Type}.
Variable tz_localize : Z -> Z.

(** The percentage of a non-empty tz-aware frame with observations in a
    window of non-zero length: the count over [days * 24], times 100,
    capped at 100. *)
Lemma completeness_formula (fs : FileSystem num) (a b : string) (s e : Z)
    (df : DataFrame num) :
  fs (flow_filename a b) = Some (Json df) ->
  ts_column df = TzAware ->
  let n := Z.of_nat (length (in_window tz_localize df s e)) in
  0 < n -> (e - s) * 24 <> 0 ->
  completeness (audit tz_localize fs a b s e)
  = py_min 100 (inject_Z n / inject_Z ((e - s) * 24) * 100)%Q.
Proof.
  intros Hfs Hts n Hn Hh.
  assert (Hne : records df <> []).
  { intros E. subst n. unfold in_window in Hn. rewrite E in Hn. simpl in Hn. lia. }
  rewrite (audit_aware tz_localize fs a b s e df Hfs Hts Hne). cbv zeta.
  fold n. destruct (Z.eqb_spec n 0); [lia |].
  destruct (Z.eqb_spec ((e - s) * 24) 0); [lia |].
  destruct (Qlt_bool 99 _); reflexivity.
Qed.

(** No audit reports more than 100. *)
Lemma completeness_le_100 (fs : FileSystem num) (a b : string) (s e : Z) :
  (completeness (audit tz_localize fs a b s e) <= 100)%Q.
Proof.
  destruct (fs (flow_filename a b)) as [[| df] |] eqn:Hfs;
    [unfold audit; rewrite Hfs; simpl; discriminate | |
     unfold audit; rewrite Hfs; simpl; discriminate].
  destruct (ts_column df) eqn:Hts, (records df) as [| r0 recs] eqn:Hrec;
    try (unfold audit; rewrite Hfs; destruct df; simpl in *; subst; simpl;
         discriminate).
  rewrite (audit_aware tz_localize fs a b s e df Hfs Hts)
    by (rewrite Hrec; discriminate).
  cbv zeta.
  destruct (_ =? 0); [simpl; discriminate |].
  destruct (_ =? 0); [simpl; discriminate |].
  destruct (Qlt_bool _ _); simpl; apply py_min_le.
Qed.

(** In the [Partial] branch the days listed are those of the window,
    whatever the observations: [all_days] is tz-naive, [present_days] is
    tz-aware, and the difference of the two removes nothing. *)
Lemma partial_lists_the_whole_window (fs : FileSystem num) (a b : string)
    (s e : Z) (df : DataFrame num) :
  fs (flow_filename a b) = Some (Json df) ->
  ts_column df = TzAware ->
  records df <> [] ->
  status (audit tz_localize fs a b s e) = Partial ->
  missing_days (audit tz_localize fs a b s e)
  = describe_missing (date_range_D s e).
Proof.
  intros Hfs Hts Hne.
  rewrite (audit_aware tz_localize fs a b s e df Hfs Hts Hne). cbv zeta.
  destruct (_ =? 0); [discriminate |].
  destruct (_ =? 0); [discriminate |].
  destruct (Qlt_bool _ _); [discriminate |].
  intros _. simpl. unfold difference. simpl. rewrite unique_date_range.
  reflexivity.
Qed.

(** So the text "Partial hours missing" is out of reach as soon as the end
    of the window is not before its start. *)
Lemma window_days_not_empty (s e : Z) :
  s <= e -> describe_missing (date_range_D s e) <> PartialHoursMissing.
Proof.
  intros Hse. unfold describe_missing, date_range_D. simpl.
  rewrite seqZ_cons by lia. simpl.
  destruct (10 <? S _)%nat; discriminate.
Qed.

(** C1 (amended).  For every audit of a readable series with at least one
    observation in a window of at least one day, the status is [Complete]
    if and only if the observation count is strictly more than 99% of the
    expected hourly count [(end - start).days * 24]; the missing-days
    descriptor is then "None", and every other such audit is [Partial]. *)
Theorem complete_iff_more_than_99_percent (fs : FileSystem num)
    (a b : string) (s e : Z) (df : DataFrame num) :
  fs (flow_filename a b) = Some (Json df) ->
  ts_column df = TzAware ->
  let n := Z.of_nat (length (in_window tz_localize df s e)) in
  0 < n -> 0 < e - s ->
  let r := audit tz_localize fs a b s e in
  (status r = Complete <-> 99 * ((e - s) * 24) < 100 * n)
  /\ (status r = Complete -> missing_days r = NoneMissing)
  /\ (status r <> Complete -> status r = Partial).
Proof.
  intros Hfs Hts n Hn Hd r.
  assert (Hne : records df <> []).
  { intros E. subst n. unfold in_window in Hn. rewrite E in Hn. simpl in Hn. lia. }
  subst r. rewrite (audit_aware tz_localize fs a b s e df Hfs Hts Hne).
  cbv zeta. fold n.
  destruct (Z.eqb_spec n 0); [lia |].
  destruct (Z.eqb_spec ((e - s) * 24) 0); [lia |].
  pose proof (py_min_gt 100 (inject_Z n / inject_Z ((e - s) * 24) * 100) 99
                eq_refl) as Hmin.
  pose proof (percent_gt_99 n ((e - s) * 24) ltac:(lia)) as Hpc.
  destruct (Qlt_bool 99 _) eqn:Ec; simpl.
  - repeat split; try congruence. intros _. apply Hpc, Hmin. reflexivity.
  - repeat split; try congruence.
    intros Hlt. apply Hpc, Hmin in Hlt. congruence.
Qed.

(** C9.  For a pair with no backing file, [get_flow_data] returns [None]
    (it is a value, not an exception), and the audit of the pair has
    status "Missing File" for every window. *)
Theorem missing_file_unconditional (fs : FileSystem num) (a b : string) :
  fs (flow_filename a b) = None ->
  get_flow_data fs a b = None
  /\ forall s e : Z, status (audit tz_localize fs a b s e) = MissingFile.
Proof.
  intros Hfs. unfold get_flow_data, audit. rewrite Hfs. split; reflexivity.
Qed.

(** C10.  Every entry of the report whose status is neither "Complete"
    nor "Partial" carries the percentage 0 and the descriptor "All", the
    values the loop starts from. *)
Theorem ungraded_entries_keep_defaults (countries : list Country)
    (fs : FileSystem num) (s e : Z) (entry : ReportEntry) :
  entry ∈ report tz_localize countries fs s e ->
  Status_ entry <> Complete -> Status_ entry <> Partial ->
  Completeness_ entry = 0%Q /\ MissingInfo_ entry = All.
Proof.
  unfold report. intros Hin.
  apply list_elem_of_bind in Hin as (c & Hin & _).
  apply list_elem_of_bind in Hin as (code_to & Hin & _).
  apply list_elem_of_singleton in Hin. subst entry. simpl.
  apply audit_defaults.
Qed.
End AuditorClaims.

(** C1 (as stated) fails.  A window of 25 days expects 600 hours; a series
    with 594 observations in it holds exactly 99% of them, and the audit
    answers "Partial": the test is [completeness > 99].  The last component
    evaluates the same expression in binary64. *)
Lemma exactly_99_percent_is_partial :
  let df := mkDataFrame TzAware (hourly 0 (brussels_winter 100) 594) in
  let fs := one_file "BG" "RO" (Json df) in
  100 * Z.of_nat (length (in_window brussels_winter df 100 125))
    = 99 * ((125 - 100) * 24)
  /\ status (audit brussels_winter fs "BG" "RO" 100 125) = Partial
  /\ PrimFloat.ltb 99 (594 / 600 * 100)%float = false.
Proof. vm_compute. repeat split. Qed.

Lemma complete_iff_more_than_99_percent_witness :
  let df := mkDataFrame TzAware (hourly 0 (brussels_winter 100) 238) in
  let fs := one_file "BG" "RO" (Json df) in
  let r := audit brussels_winter fs "BG" "RO" 100 110 in
  (status r = Complete <-> 99 * ((110 - 100) * 24) < 100 * 238)
  /\ (status r = Complete -> missing_days r = NoneMissing)
  /\ (status r <> Complete -> status r = Partial).
Proof.
  intros df fs.
  apply (complete_iff_more_than_99_percent brussels_winter fs "BG" "RO" 100 110 df);
    [reflexivity | reflexivity | vm_compute; reflexivity | lia].
Defined.

(** C6, at a failing input.  The window runs over the days 100 to 102 and
    both observations fall on day 100, at noon and at one o'clock in
    Brussels; the audit is "Partial" and names the three days of the window
    as missing, day 100 included. *)
Theorem partial_descriptor_names_observed_day :
  let df := mkDataFrame TzAware (hourly 0 (brussels_winter 100 + 12 * 3600) 2) in
  let r := audit brussels_winter (one_file "BG" "RO" (Json df)) "BG" "RO" 100 102 in
  map (fun rec => date_of (fst rec)) (records df) = [100; 100]
  /\ map (fun rec => date_of (fst rec + 3600)) (records df) = [100; 100]
  /\ length (in_window brussels_winter df 100 102) = 2%nat
  /\ status r = Partial
  /\ missing_days r = DaysList [100; 101; 102].
Proof. vm_compute. repeat split. Qed.

(** C7, at a failing input.  With the start and the end of the window on
    the same day and one observation at that midnight, the expected-hours
    denominator is 0; the division raises, the handler sets "Error Reading"
    and the percentage stays 0. *)
Theorem zero_day_window_is_error_reading :
  let df := mkDataFrame TzAware [(brussels_winter 100, 0)] in
  let r := audit brussels_winter (one_file "BG" "RO" (Json df)) "BG" "RO" 100 100 in
  length (in_window brussels_winter df 100 100) = 1%nat
  /\ (100 - 100) * 24 = 0
  /\ status r = ErrorReading
  /\ completeness r = 0%Q
  /\ missing_days r = All.
Proof. vm_compute. repeat split. Qed.

Lemma missing_file_unconditional_witness :
  let fs := one_file "BG" "RO" (Json (mkDataFrame TzAware (hourly 0 0 24))) in
  fs (flow_filename "GR" "BG") = None
  /\ get_flow_data fs "GR" "BG" = None
  /\ forall s e : Z, status (audit brussels_winter fs "GR" "BG" s e) = MissingFile.
Proof.
  intros fs. split; [reflexivity |].
  apply (missing_file_unconditional brussels_winter fs "GR" "BG"). reflexivity.
Defined.

Lemma ungraded_entries_keep_defaults_witness :
  let fs := one_file "BG" "RO" (Json (mkDataFrame TzAware (hourly 0 0 24))) in
  let entry := mkEntry "GR" "BG" MissingFile 0 All in
  entry ∈ report brussels_winter balkans fs 0 1
  /\ Completeness_ entry = 0%Q /\ MissingInfo_ entry = All.
Proof.
  intros fs entry.
  assert (Hin : entry ∈ report brussels_winter balkans fs 0 1).
  { apply list_elem_of_In. vm_compute. right. right. left. reflexivity. }
  split; [exact Hin |].
  apply (ungraded_entries_keep_defaults brussels_winter balkans fs 0 1 entry Hin);
    discriminate.
Defined.

(** ** The country balance *)

Lemma series_empty_true {num} (s : gmap Z num) :
  series_empty s = true <-> s = ∅.
Proof.
  unfold series_empty. rewrite <- map_to_list_empty_iff.
  destruct (map_to_list s); split; intros; congruence.
Qed.

Lemma series_empty_false {num} (s : gmap Z num) :
  series_empty s = false <-> s <> ∅.
Proof.
  rewrite <- series_empty_true. destruct (series_empty s); split; congruence.
Qed.

Lemma flow_not_empty {num} (df : DataFrame num) :
  records df <> [] -> flow df <> ∅.
Proof.
  unfold flow. destruct (records df) as [| [t v] l]; [congruence |].
  intros _. simpl. apply insert_non_empty.
Qed.

(** [get_flow_data] hands over frames with at least one record only. *)
Lemma get_flow_data_not_empty {num} (fs : FileSystem num) (a b : string)
    (df : DataFrame num) :
  get_flow_data fs a b = Some df -> records df <> [].
Proof.
  unfold get_flow_data. destruct (fs (flow_filename a b)) as [[| df'] |];
    try discriminate.
  unfold get_flow_data_try, mbind, Exec_bind, read_json, mret, Exec_ret.
  destruct df' as [tc recs]. unfold df_empty, has_timestamp. simpl.
  destruct recs; simpl; [discriminate |].
  destruct tc; simpl; try discriminate; intros [= <-]; discriminate.
Qed.






Section BalanceFacts.
Context {num : Type}.
Variables (zero nan : num) (isna : num -> bool) (add sub : num -> num -> num).

Local Abbreviation add_fill' := (add_fill zero nan isna add).
Local Abbreviation accumulate_series' := (accumulate_series zero nan isna add).
Local Abbreviation aligned_sum' := (aligned_sum zero nan isna add).
Local Abbreviation fillna' := (fillna zero isna).
Local Abbreviation series_sub' := (series_sub nan sub).
Local Abbreviation reindex' := (reindex nan).

Lemma lookup_add_fill (a b : gmap Z num) (t : Z) :
  add_fill' a b !! t =
    match a !! t, b !! t with
    | None, None => None
    | x, y => Some (add (fill zero isna (aligned nan x) (aligned nan y))
                        (fill zero isna (aligned nan y) (aligned nan x)))
    end.
Proof.
  unfold add_fill. rewrite lookup_merge.
  destruct (a !! t), (b !! t); reflexivity.
Qed.

Lemma dom_add_fill (a b : gmap Z num) : dom (add_fill' a b) = dom a ∪ dom b.
Proof.
  apply set_eq. intros t.
  rewrite elem_of_union, !elem_of_dom, lookup_add_fill.
  destruct (a !! t), (b !! t); simpl; split;
    rewrite ?is_Some_alt; try tauto; intros [[] | []].
Qed.

Lemma dom_accumulate_series (acc s : gmap Z num) :
  dom (accumulate_series' acc s) = dom acc ∪ dom s.
Proof.
  unfold accumulate_series.
  destruct (series_empty acc) eqn:E.
  - apply series_empty_true in E. subst acc.
    rewrite dom_empty_L, (left_id_L ∅ (∪)). reflexivity.
  - apply dom_add_fill.
Qed.

Lemma dom_foldl_accumulate (l : list (gmap Z num)) (acc : gmap Z num) :
  dom (foldl accumulate_series' acc l) = dom acc ∪ index_union l.
Proof.
  revert acc. induction l as [| s l IH]; intros acc; simpl.
  - unfold index_union. simpl. rewrite (right_id_L ∅ (∪)). reflexivity.
  - rewrite IH, dom_accumulate_series. unfold index_union. simpl.
    rewrite (assoc_L (∪)). reflexivity.
Qed.

Lemma dom_aligned_sum (l : list (gmap Z num)) :
  dom (aligned_sum' l) = index_union l.
Proof.
  unfold aligned_sum.
  rewrite dom_foldl_accumulate, dom_empty_L, (left_id_L ∅ (∪)). reflexivity.
Qed.


(** The two loops compute the aligned sum of the series they load. *)
Lemma exports_loop_sum (fs : FileSystem num) (tc : string) (target : Country) :
  exports_loop zero nan isna add fs tc target
  = aligned_sum' (export_series fs tc target).
Proof.
  unfold exports_loop, aligned_sum, export_series.
  generalize (∅ : gmap Z num) as acc.
  induction (neighbors target) as [| nb l IH]; intros acc; [reflexivity |].
  simpl. destruct (get_flow_data fs tc nb); simpl; apply IH.
Qed.

Lemma imports_loop_sum (fs : FileSystem num) (tc : string)
    (countries : list Country) :
  imports_loop zero nan isna add fs tc countries
  = aligned_sum' (import_series fs tc countries).
Proof.
  unfold imports_loop, aligned_sum, import_series.
  generalize (∅ : gmap Z num) as acc.
  induction countries as [| c l IH]; intros acc; [reflexivity |].
  simpl. rewrite filter_cons. case_bool_decide as Hn.
  - rewrite decide_True by exact Hn. simpl.
    destruct (get_flow_data fs (code c) tc); simpl; apply IH.
  - rewrite decide_False by exact Hn. apply IH.
Qed.

(** Every series the loops load has at least one entry. *)
Lemma export_series_not_empty (fs : FileSystem num) (tc : string)
    (target : Country) (s : gmap Z num) :
  s ∈ export_series fs tc target -> s <> ∅.
Proof.
  unfold export_series. rewrite list_elem_of_omap.
  intros (nb & _ & Hs). destruct (get_flow_data fs tc nb) as [df |] eqn:E;
    [| discriminate].
  simpl in Hs. injection Hs as <-.
  eapply flow_not_empty, get_flow_data_not_empty, E.
Qed.

Lemma import_series_not_empty (fs : FileSystem num) (tc : string)
    (countries : list Country) (s : gmap Z num) :
  s ∈ import_series fs tc countries -> s <> ∅.
Proof.
  unfold import_series. rewrite list_elem_of_omap.
  intros (c & _ & Hs). destruct (get_flow_data fs (code c) tc) as [df |] eqn:E;
    [| discriminate].
  simpl in Hs. injection Hs as <-.
  eapply flow_not_empty, get_flow_data_not_empty, E.
Qed.

Lemma index_union_empty (l : list (gmap Z num)) :
  (forall s, s ∈ l -> s <> ∅) -> index_union l = ∅ -> l = [].
Proof.
  destruct l as [| s l]; [reflexivity |]. intros Hne Hu. exfalso.
  apply (Hne s); [left |].
  apply dom_empty_iff_L. unfold index_union in Hu. simpl in Hu.
  apply empty_union_L in Hu. tauto.
Qed.

Lemma aligned_sum_empty (l : list (gmap Z num)) :
  (forall s, s ∈ l -> s <> ∅) -> (aligned_sum' l = ∅ <-> l = []).
Proof.
  intros Hne. split.
  - intros E. apply (index_union_empty l Hne).
    rewrite <- dom_aligned_sum, E. apply dom_empty_L.
  - intros ->. reflexivity.
Qed.

Lemma lookup_reindex (s other : gmap Z num) (t : Z) :
  reindex' s other !! t =
    match s !! t, other !! t with
    | None, None => None
    | x, _ => Some (aligned nan x)
    end.
Proof.
  unfold reindex. rewrite lookup_merge.
  destruct (s !! t), (other !! t); reflexivity.
Qed.

Lemma dom_reindex (s other : gmap Z num) :
  dom (reindex' s other) = dom s ∪ dom other.
Proof.
  apply set_eq. intros t.
  rewrite elem_of_union, !elem_of_dom, lookup_reindex.
  destruct (s !! t), (other !! t); simpl; split;
    rewrite ?is_Some_alt; try tauto; intros [[] | []].
Qed.

Lemma lookup_fillna (s : gmap Z num) (t : Z) :
  fillna' s !! t = nan_to_zero zero isna <$> s !! t.
Proof. unfold fillna. apply lookup_fmap. Qed.

Lemma dom_fillna (s : gmap Z num) : dom (fillna' s) = dom s.
Proof. unfold fillna. apply dom_fmap_L. Qed.

Lemma lookup_series_sub (a b : gmap Z num) (t : Z) :
  series_sub' a b !! t =
    match a !! t, b !! t with
    | None, None => None
    | x, y => Some (sub (aligned nan x) (aligned nan y))
    end.
Proof.
  unfold series_sub. rewrite lookup_merge.
  destruct (a !! t), (b !! t); reflexivity.
Qed.

Lemma dom_series_sub (a b : gmap Z num) :
  dom a = dom b -> dom (series_sub' a b) = dom a.
Proof.
  intros Hab. apply set_eq. intros t. rewrite !elem_of_dom, lookup_series_sub.
  assert (Hiff : is_Some (a !! t) <-> is_Some (b !! t))
    by (rewrite <- !elem_of_dom, Hab; reflexivity).
  destruct (a !! t), (b !! t); simpl; rewrite ?is_Some_alt in *; tauto.
Qed.

Lemma nan_to_zero_zero : nan_to_zero zero isna zero = zero.
Proof. unfold nan_to_zero. destruct (isna zero); reflexivity. Qed.

(** The shape of the view, in terms of the two aligned sums. *)
Lemma country_total_inv (fs : FileSystem num) (countries : list Country)
    (tc : string) (view : BalanceView num) :
  country_total zero nan isna add sub fs countries tc = Some view ->
  exists target, target_data countries tc = Some target /\
    let im := aligned_sum' (import_series fs tc countries) in
    let ex := aligned_sum' (export_series fs tc target) in
    if series_empty im && series_empty ex then view = mkView true None
    else exists I E : gmap Z num,
      view = mkView false (Some (mkTable I E (series_sub' E I)))
      /\ dom I = dom im ∪ dom ex /\ dom E = dom im ∪ dom ex
      /\ forall t, t ∈ dom im ∪ dom ex ->
           I !! t = Some (column_value zero nan isna im t)
           /\ E !! t = Some (column_value zero nan isna ex t).
Proof.
  unfold country_total.
  destruct (target_data countries tc) as [target |]; [| discriminate].
  rewrite exports_loop_sum, imports_loop_sum.
  set (im := aligned_sum' (import_series fs tc countries)).
  set (ex := aligned_sum' (export_series fs tc target)).
  intros H. exists target. split; [reflexivity |]. cbv zeta. fold im ex.
  unfold combine in H. unfold column_value.
  destruct (series_empty im) eqn:Ei, (series_empty ex) eqn:Ee; simpl in H |- *.
  - rewrite (proj2 (series_empty_true (∅ : gmap Z num)) eq_refl) in H.
    simpl in H. congruence.
  - apply series_empty_true in Ei. subst im. rewrite Ei in *.
    assert (Hn : series_empty ((fun _ : num => zero) <$> ex) = false).
    { apply series_empty_false. intros E0. apply fmap_empty_inv in E0.
      apply series_empty_false in Ee. contradiction. }
    rewrite Hn in H. simpl in H. injection H as <-.
    eexists _, _. split; [reflexivity |].
    rewrite !dom_fillna, dom_fmap_L, dom_empty_L, (left_id_L ∅ (∪)).
    split; [reflexivity | split; [reflexivity |]].
    intros t Ht. rewrite !lookup_fillna, lookup_fmap.
    assert (Hs : is_Some (ex !! t)) by (apply elem_of_dom, Ht).
    destruct Hs as [x Hx]. rewrite Hx. simpl. rewrite nan_to_zero_zero. tauto.
  - apply series_empty_true in Ee. subst ex. rewrite Ee in *.
    rewrite Ei in H. simpl in H. injection H as <-.
    eexists _, _. split; [reflexivity |].
    rewrite !dom_fillna, dom_fmap_L, dom_empty_L, (right_id_L ∅ (∪)).
    split; [reflexivity | split; [reflexivity |]].
    intros t Ht. rewrite !lookup_fillna, lookup_fmap.
    assert (Hs : is_Some (im !! t)) by (apply elem_of_dom, Ht).
    destruct Hs as [x Hx]. rewrite Hx. simpl. rewrite nan_to_zero_zero. tauto.
  - assert (Hn : series_empty (reindex' im ex) = false).
    { apply series_empty_false. intros E0.
      apply series_empty_false in Ei. apply Ei.
      apply dom_empty_iff_L.
      assert (Hd : dom (reindex' im ex) = ∅) by (rewrite E0; apply dom_empty_L).
      rewrite dom_reindex in Hd. apply empty_union_L in Hd. tauto. }
    rewrite Hn in H. simpl in H. injection H as <-.
    eexists _, _. split; [reflexivity |].
    rewrite !dom_fillna, !dom_reindex.
    split; [reflexivity | split; [apply (comm_L (∪)) |]].
    intros t Ht. rewrite !lookup_fillna, !lookup_reindex.
    apply elem_of_union in Ht. rewrite !elem_of_dom in Ht.
    destruct (im !! t), (ex !! t); simpl; try tauto.
    destruct Ht as [[] | []]; discriminate.
Qed.



(** C4.  In every balance table the three columns share one index, and at
    every timestamp of it the Net Flow entry is the Exports entry minus the
    Imports entry: the very result of the subtraction, with nothing added. *)
Theorem net_flow_is_exports_minus_imports (fs : FileSystem num)
    (countries : list Country) (tc : string) (view : BalanceView num)
    (tbl : BalanceTable num) :
  country_total zero nan isna add sub fs countries tc = Some view ->
  table view = Some tbl ->
  dom (NetFlow tbl) = dom (Exports tbl)
  /\ dom (Exports tbl) = dom (Imports tbl)
  /\ forall t, t ∈ dom (NetFlow tbl) ->
       exists e i, Exports tbl !! t = Some e /\ Imports tbl !! t = Some i
                   /\ NetFlow tbl !! t = Some (sub e i).
Proof.
  intros Hv Ht. apply country_total_inv in Hv as (target & _ & Hv).
  cbv zeta in Hv. destruct (_ && _).
  - subst view. discriminate.
  - destruct Hv as (I & E & -> & HI & HE & Hval). simpl in Ht.
    injection Ht as <-. simpl.
    assert (Hd : dom (series_sub' E I) = dom E)
      by (apply dom_series_sub; congruence).
    split; [exact Hd |]. split; [congruence |].
    intros t Hin. rewrite Hd, HE in Hin.
    destruct (Hval t Hin) as [Hi He].
    eexists _, _. split; [exact He |]. split; [exact Hi |].
    rewrite lookup_series_sub, He, Hi. reflexivity.
Qed.

(** C8 (amended).  The view is the warning with no table exactly when
    every load of the two loops returned nothing; as soon as one load
    returns a series the view is a table with rows and no warning. *)
Theorem no_data_signal_iff_nothing_loaded (fs : FileSystem num)
    (countries : list Country) (tc : string) (target : Country)
    (view : BalanceView num) :
  target_data countries tc = Some target ->
  country_total zero nan isna add sub fs countries tc = Some view ->
  let nothing_loaded :=
    (forall nb, nb ∈ neighbors target -> get_flow_data fs tc nb = None)
    /\ (forall c, c ∈ countries -> tc ∈ neighbors c ->
                  get_flow_data fs (code c) tc = None) in
  (nothing_loaded -> view = mkView true None)
  /\ (~ nothing_loaded ->
      warning view = false
      /\ exists tbl, table view = Some tbl /\ dom (Imports tbl) <> ∅).
Proof.
  intros Ht Hv nothing.
  assert (Hiff : nothing <->
            import_series fs tc countries = [] /\ export_series fs tc target = []).
  { unfold nothing, import_series, export_series. split.
    - intros [He Hi]. split.
      + apply elem_of_nil_inv. intros s Hs.
        apply list_elem_of_omap in Hs as (c & Hc & Hs).
        apply list_elem_of_filter in Hc as [Hn Hc].
        rewrite (Hi c Hc Hn) in Hs. discriminate.
      + apply elem_of_nil_inv. intros s Hs.
        apply list_elem_of_omap in Hs as (nb & Hnb & Hs).
        rewrite (He nb Hnb) in Hs. discriminate.
    - intros [Hi He]. split.
      + intros nb Hnb. destruct (get_flow_data fs tc nb) as [df |] eqn:E;
          [| reflexivity].
        assert (Hin : flow df ∈ omap
                  (fun neighbor => flow <$> get_flow_data fs tc neighbor)
                  (neighbors target)).
        { apply list_elem_of_omap. exists nb. rewrite E. tauto. }
        rewrite He in Hin. inversion Hin.
      + intros c Hc Hn.
        destruct (get_flow_data fs (code c) tc) as [df |] eqn:E;
          [| reflexivity].
        assert (Hin : flow df ∈ omap
                  (fun c => flow <$> get_flow_data fs (code c) tc)
                  (filter (fun c => tc ∈ neighbors c) countries)).
        { apply list_elem_of_omap. exists c. rewrite E.
          split; [apply list_elem_of_filter; tauto | reflexivity]. }
        rewrite Hi in Hin. inversion Hin. }
  apply country_total_inv in Hv as (target' & Ht' & Hv).
  rewrite Ht in Ht'. injection Ht' as <-. cbv zeta in Hv.
  pose proof (aligned_sum_empty (import_series fs tc countries)
                (import_series_not_empty fs tc countries)) as Him.
  pose proof (aligned_sum_empty (export_series fs tc target)
                (export_series_not_empty fs tc target)) as Hex.
  destruct (series_empty (aligned_sum' (import_series fs tc countries))) eqn:Ei,
           (series_empty (aligned_sum' (export_series fs tc target))) eqn:Ee;
    simpl in Hv.
  - split; [intros _; exact Hv |].
    apply series_empty_true in Ei, Ee.
    intros Hno. exfalso. apply Hno, Hiff. tauto.
  - apply series_empty_false in Ee.
    destruct Hv as (I & E & -> & HI & _).
    split; [intros Hno; apply Hiff in Hno; tauto |].
    intros _. split; [reflexivity |]. eexists. split; [reflexivity |].
    simpl. rewrite HI. intros E0. apply empty_union_L in E0 as [_ E0].
    apply dom_empty_iff_L in E0. contradiction.
  - apply series_empty_false in Ei.
    destruct Hv as (I & E & -> & HI & _).
    split; [intros Hno; apply Hiff in Hno; tauto |].
    intros _. split; [reflexivity |]. eexists. split; [reflexivity |].
    simpl. rewrite HI. intros E0. apply empty_union_L in E0 as [E0 _].
    apply dom_empty_iff_L in E0. contradiction.
  - apply series_empty_false in Ei.
    destruct Hv as (I & E & -> & HI & _).
    split; [intros Hno; apply Hiff in Hno; tauto |].
    intros _. split; [reflexivity |]. eexists. split; [reflexivity |].
    simpl. rewrite HI. intros E0. apply empty_union_L in E0 as [E0 _].
    apply dom_empty_iff_L in E0. contradiction.
Qed.

(** *** Sums with NaN read as zero

    What the sums below ask of the arithmetic, and binary64 grants: [0] is
    a number, NaN is not, [0 + 0] is [0] and the sum of two NaN is NaN. *)
Section NanAsZeroSum.
Hypothesis isna_zero : isna zero = false.
Hypothesis isna_nan : isna nan = true.
Hypothesis add_zeros : add zero zero = zero.
Hypothesis add_nans :
  forall x y, isna x = true -> isna y = true -> isna (add x y) = true.

Local Abbreviation nan_to_zero' := (nan_to_zero zero isna).
Local Abbreviation nan_as_zero_sum' := (nan_as_zero_sum zero nan isna add).





End NanAsZeroSum.


Lemma column_value_number (s : gmap Z num) (t : Z) :
  isna zero = false -> isna (column_value zero nan isna s t) = false.
Proof.
  intros Hzero. unfold column_value, nan_to_zero.
  destruct (series_empty s); [exact Hzero |].
  destruct (isna (aligned nan (s !! t))) eqn:E; [exact Hzero | exact E].
Qed.


End BalanceFacts.

(** Scenario 1: the imports of B add up to 2400 MWh over the day, its
    exports are 0 in every hour. *)
Example scenario_1_imports :
  exists tbl,
    country_total_f64 scenario_1_files scenario_1_countries "B"
    = Some (mkView false (Some tbl))
    /\ size (Imports tbl) = 24%nat
    /\ map_fold (fun _ v acc => (acc + v)%float) 0%float (Imports tbl) = 2400%float
    /\ map_fold (fun _ v acc => (acc + v)%float) 0%float (Exports tbl) = 0%float
    /\ NetFlow tbl !! 3600 = Some (-100)%float.
Proof.
  eexists. split; [vm_compute; reflexivity |].
  vm_compute. repeat split.
Qed.

Lemma net_flow_is_exports_minus_imports_witness :
  exists view tbl,
    country_total_exact three_files balkans "BG" = Some view
    /\ table view = Some tbl
    /\ NetFlow tbl !! 0 = Some (xsub (Some 5) (Some 7))
    /\ dom (NetFlow tbl) = dom (Exports tbl)
    /\ dom (Exports tbl) = dom (Imports tbl)
    /\ forall t, t ∈ dom (NetFlow tbl) ->
         exists e i, Exports tbl !! t = Some e /\ Imports tbl !! t = Some i
                     /\ NetFlow tbl !! t = Some (xsub e i).
Proof.
  eexists _, _. split; [vm_compute; reflexivity |].
  split; [reflexivity |]. split; [vm_compute; reflexivity |].
  eapply (net_flow_is_exports_minus_imports (Some 0) None xisna xadd xsub
            three_files balkans "BG"); vm_compute; reflexivity.
Defined.




(** The sum of the two infinities is NaN in binary64 and reads as 0, in
    the table as in the sum of the contributions. *)
Example exports_of_opposite_infinities :
  exists tbl,
    country_total_f64 opposite_infinities balkans "BG"
    = Some (mkView false (Some tbl))
    /\ Exports tbl !! 0 = Some 0%float
    /\ nan_as_zero_sum 0%float PrimFloat.nan PrimFloat.is_nan PrimFloat.add
         [Some PrimFloat.infinity; Some PrimFloat.neg_infinity] = 0%float
    /\ Exports tbl !! 3600 = Some 2%float.
Proof.
  eexists. split; [vm_compute; reflexivity |]. vm_compute. repeat split.
Qed.

(** Romania imports what Bulgaria sends: 5 in the first hour, and the NaN
    of the second hour reads as 0. *)
Example imports_of_romania :
  exists tbl,
    country_total_f64 three_files_f64 balkans "RO"
    = Some (mkView false (Some tbl))
    /\ Imports tbl !! 0 = Some 5%float
    /\ Imports tbl !! 3600 = Some 0%float.
Proof.
  eexists. split; [vm_compute; reflexivity |]. vm_compute. split; reflexivity.
Qed.

(** C8 (as stated) fails.  Romania's only file, from Bulgaria, holds two
    records whose flow is NaN: no flow is confirmed, zero or otherwise, and
    the view is a table of two rows with 0 in every column, without the
    warning. *)
Lemma all_zero_table_from_nan_flows :
  exists df tbl,
    get_flow_data nan_file "BG" "RO" = Some df
    /\ forallb (fun r => PrimFloat.is_nan (snd r)) (records df) = true
    /\ country_total_f64 nan_file balkans "RO" = Some (mkView false (Some tbl))
    /\ (map_to_list (Imports tbl) ≡ₚ [(0, 0%float); (3600, 0%float)])
    /\ (map_to_list (Exports tbl) ≡ₚ [(0, 0%float); (3600, 0%float)])
    /\ (map_to_list (NetFlow tbl) ≡ₚ [(0, 0%float); (3600, 0%float)]).
Proof.
  eexists _, _. split; [reflexivity |]. split; [reflexivity |].
  split; [vm_compute; reflexivity |].
  vm_compute. repeat split; repeat constructor.
Defined.

Lemma no_data_signal_iff_nothing_loaded_witness :
  let fs := one_file "BG" "RO" (Json (mkDataFrame TzAware [(0, Some 5)])) in
  exists view,
    target_data balkans "GR" = Some GR
    /\ country_total_exact fs balkans "GR" = Some view
    /\ view = mkView true None.
Proof.
  intros fs. eexists.
  assert (Ht : target_data balkans "GR" = Some GR) by reflexivity.
  assert (Hv : country_total_exact fs balkans "GR" = Some _)
    by (vm_compute; reflexivity).
  split; [exact Ht |]. split; [exact Hv |].
  apply (no_data_signal_iff_nothing_loaded (Some 0) None xisna xadd xsub
           fs balkans "GR" GR _ Ht Hv).
  split.
  - intros nb Hnb. apply list_elem_of_singleton in Hnb. subst nb. reflexivity.
  - intros c Hc Hn. apply list_elem_of_In in Hc.
    destruct Hc as [<- | [<- | [<- | []]]]; reflexivity.
Defined.

(** ** Consolidation of ingested observations *)

Section IngestionFacts.
Context {num : Type}.
Implicit Types (l : list (Z * num)) (r : Z * num) (t : Z).

Lemma first_flow_cons t r l :
  first_flow t (r :: l) = if fst r =? t then Some (snd r) else first_flow t l.
Proof. unfold first_flow. simpl. destruct (fst r =? t); reflexivity. Qed.

Lemma first_flow_app t l1 l2 :
  first_flow t (l1 ++ l2)
  = match first_flow t l1 with Some v => Some v | None => first_flow t l2 end.
Proof.
  induction l1 as [| r l1 IH]; [reflexivity |].
  simpl. rewrite !first_flow_cons. destruct (fst r =? t); [reflexivity | exact IH].
Qed.

Lemma last_flow_app t l1 l2 :
  last_flow t (l1 ++ l2)
  = match last_flow t l2 with Some v => Some v | None => last_flow t l1 end.
Proof. unfold last_flow. rewrite rev_app_distr. apply first_flow_app. Qed.

Lemma last_flow_cons t r l :
  last_flow t (r :: l)
  = match last_flow t l with
    | Some v => Some v
    | None => if fst r =? t then Some (snd r) else None
    end.
Proof.
  change (r :: l) with ([r] ++ l). rewrite last_flow_app.
  destruct (last_flow t l); [reflexivity |].
  unfold last_flow. simpl. rewrite first_flow_cons. reflexivity.
Qed.

Lemma first_flow_None t l : first_flow t l = None <-> t ∉ map fst l.
Proof.
  induction l as [| r l IH]; simpl.
  - split; [intros _; apply not_elem_of_nil | reflexivity].
  - rewrite first_flow_cons, not_elem_of_cons.
    destruct (Z.eqb_spec (fst r) t); [| rewrite IH]; split; try tauto;
      intros; try discriminate; intuition congruence.
Qed.

Lemma last_flow_None t l : last_flow t l = None <-> t ∉ map fst l.
Proof.
  unfold last_flow. rewrite first_flow_None, map_rev, !list_elem_of_In.
  rewrite <- in_rev. reflexivity.
Qed.

Lemma first_flow_Some_elem t l v : first_flow t l = Some v -> (t, v) ∈ l.
Proof.
  induction l as [| r l IH]; [discriminate |].
  rewrite first_flow_cons. destruct (Z.eqb_spec (fst r) t).
  - intros [= <-]. subst t. destruct r. left.
  - intros H. right. apply IH, H.
Qed.

(** With one row per timestamp, a row is the first of its timestamp. *)
Lemma first_flow_unique t l v :
  NoDup (map fst l) -> (t, v) ∈ l -> first_flow t l = Some v.
Proof.
  induction l as [| r l IH]; intros Hnd Hin; [inversion Hin |].
  simpl in Hnd. apply NoDup_cons in Hnd as [Hr Hnd].
  rewrite first_flow_cons. apply elem_of_cons in Hin as [<- | Hin].
  - simpl. rewrite Z.eqb_refl. reflexivity.
  - destruct (Z.eqb_spec (fst r) t) as [E | _]; [| apply IH; assumption].
    exfalso. apply Hr. rewrite E.
    apply (list_elem_of_fmap_2 fst) in Hin. exact Hin.
Qed.

Lemma first_flow_perm t l l' :
  NoDup (map fst l) -> l ≡ₚ l' -> first_flow t l = first_flow t l'.
Proof.
  intros Hnd Hp.
  assert (Hnd' : NoDup (map fst l')).
  { eapply NoDup_Permutation_proper; [| exact Hnd].
    symmetry. apply fmap_Permutation, Hp. }
  destruct (first_flow t l) as [v |] eqn:E.
  - symmetry. apply first_flow_unique; [exact Hnd' |].
    rewrite <- Hp. apply first_flow_Some_elem, E.
  - symmetry. apply first_flow_None. apply first_flow_None in E.
    intros Hin. apply E. eapply elem_of_Permutation_proper; [| exact Hin].
    apply fmap_Permutation, Hp.
Qed.

Lemma ascending_unique_strict l :
  ascending l -> NoDup (map fst l) -> strictly_ascending l.
Proof.
  unfold ascending, strictly_ascending. intros Hasc.
  induction Hasc as [| r l Hs IH Hall]; intros Hnd; constructor.
  - apply IH. simpl in Hnd. apply NoDup_cons in Hnd. tauto.
  - simpl in Hnd. apply NoDup_cons in Hnd as [Hr _].
    rewrite Forall_forall in Hall |- *. intros y Hy.
    assert (Hne : fst r <> fst y).
    { intros E. apply Hr. rewrite E. apply (list_elem_of_fmap_2 fst), Hy. }
    specialize (Hall y Hy). simpl in Hall. lia.
Qed.

(** *** [drop_duplicates] *)

Lemma drop_duplicates_seen_elem seen l r :
  r ∈ drop_duplicates_seen seen l -> r ∈ l /\ fst r ∉ seen.
Proof.
  revert seen. induction l as [| y l IH]; intros seen; simpl;
    [intros H; inversion H |].
  case_bool_decide as Hy.
  - intros H. apply IH in H as [H1 H2]. split; [right; exact H1 | exact H2].
  - intros H. apply elem_of_cons in H as [-> | H].
    + split; [left | exact Hy].
    + apply IH in H as [H1 H2]. split; [right; exact H1 |].
      apply not_elem_of_cons in H2. tauto.
Qed.

Lemma drop_duplicates_seen_first seen l t :
  t ∉ seen -> first_flow t (drop_duplicates_seen seen l) = first_flow t l.
Proof.
  revert seen. induction l as [| y l IH]; intros seen Ht; [reflexivity |].
  simpl. case_bool_decide as Hy.
  - rewrite first_flow_cons. destruct (Z.eqb_spec (fst y) t) as [E | _];
      [congruence | apply IH, Ht].
  - rewrite !first_flow_cons. destruct (Z.eqb_spec (fst y) t) as [E | Hn];
      [reflexivity |].
    apply IH. apply not_elem_of_cons. split; [congruence | exact Ht].
Qed.

Lemma drop_duplicates_seen_strict seen l :
  ascending l -> strictly_ascending (drop_duplicates_seen seen l).
Proof.
  unfold ascending, strictly_ascending. intros Hs. revert seen.
  induction Hs as [| y l Hs IH Hall]; intros seen; simpl; [constructor |].
  case_bool_decide as Hy; [apply IH |].
  constructor; [apply IH |].
  rewrite Forall_forall in Hall |- *. intros z Hz.
  apply drop_duplicates_seen_elem in Hz as [Hz Hn].
  apply not_elem_of_cons in Hn as [Hn _].
  specialize (Hall z Hz). simpl in Hall. lia.
Qed.

(** *** [drop_duplicates(keep='last')] *)

Lemma keep_last_elem l r : r ∈ drop_duplicates_keep_last l -> r ∈ l.
Proof.
  induction l as [| y l IH]; simpl; [intros H; inversion H |].
  case_bool_decide as Hy.
  - intros H. right. apply IH, H.
  - intros H. apply elem_of_cons in H as [-> | H]; [left | right; apply IH, H].
Qed.

Lemma keep_last_unique l : NoDup (map fst (drop_duplicates_keep_last l)).
Proof.
  induction l as [| y l IH]; simpl; [constructor |].
  case_bool_decide as Hy; [exact IH |].
  simpl. constructor; [| exact IH].
  intros Hin. apply Hy. apply list_elem_of_fmap in Hin as (z & -> & Hz).
  apply list_elem_of_fmap_2, keep_last_elem, Hz.
Qed.

Lemma keep_last_first l t :
  first_flow t (drop_duplicates_keep_last l) = last_flow t l.
Proof.
  induction l as [| y l IH]; [reflexivity |].
  simpl. rewrite last_flow_cons. case_bool_decide as Hy.
  - rewrite IH. destruct (last_flow t l) eqn:E; [reflexivity |].
    apply last_flow_None in E.
    destruct (Z.eqb_spec (fst y) t) as [Et | _]; [congruence | reflexivity].
  - rewrite first_flow_cons, IH.
    destruct (Z.eqb_spec (fst y) t) as [Et | _].
    + subst t. apply last_flow_None in Hy. rewrite Hy. reflexivity.
    + destruct (last_flow t l); reflexivity.
Qed.
End IngestionFacts.

Section ConsolidationClaims.
Context {num : Type}.
Variable sort_values : list (Z * num) -> list (Z * num).
Hypothesis sort_values_perm : forall l, sort_values l ≡ₚ l.
Hypothesis sort_values_ascending : forall l, ascending (sort_values l).

Lemma sorted_unique_strict (l : list (Z * num)) :
  NoDup (map fst l) -> strictly_ascending (sort_values l).
Proof.
  intros Hnd. apply ascending_unique_strict; [apply sort_values_ascending |].
  eapply NoDup_Permutation_proper; [| exact Hnd].
  apply fmap_Permutation, sort_values_perm.
Qed.

(** C2 (amended).  Both ingestion paths hand over a series in ascending
    order of timestamp.  The fetch path keeps one observation per timestamp,
    the first of the sorted concatenation of the monthly frames, and loses
    no timestamp.  The CSV path, when it merges into a readable file that
    has records, keeps one observation per timestamp, the last of the
    stored rows followed by the new ones: a new row replaces the stored
    one. *)
Theorem consolidated_series_sorted_one_per_timestamp :
  (forall (df_list : list (list (Z * num))) (saved : list (Z * num)),
      fetch_data sort_values df_list = Some saved ->
      strictly_ascending saved
      /\ (forall r, r ∈ saved -> r ∈ concat df_list)
      /\ (forall t, t ∈ map fst (concat df_list) -> t ∈ map fst saved)
      /\ (forall t, first_flow t saved
                    = first_flow t (sort_values (concat df_list))))
  /\ (forall (existing : option (FileContent num)) (group saved : list (Z * num)),
        import_csv sort_values existing group = Some saved ->
        ascending saved
        /\ forall df, existing = Some (Json df) -> records df <> [] ->
             ts_column df = TzAware ->
             strictly_ascending saved
             /\ (forall t, first_flow t saved
                           = last_flow t (records df ++ sort_values group))
             /\ (forall t v, t ∈ map fst group -> first_flow t saved = Some v ->
                             (t, v) ∈ group)).
Proof.
  split.
  - intros df_list saved Hf. unfold fetch_data in Hf.
    assert (Hs : saved = drop_duplicates (sort_values (concat df_list)))
      by (destruct df_list; [discriminate | congruence]).
    clear Hf. subst saved. unfold drop_duplicates.
    assert (Hfirst : forall t,
              first_flow t (drop_duplicates_seen [] (sort_values (concat df_list)))
              = first_flow t (sort_values (concat df_list)))
      by (intros t; apply drop_duplicates_seen_first, not_elem_of_nil).
    split; [apply drop_duplicates_seen_strict, sort_values_ascending |].
    split; [| split; [| exact Hfirst]].
    + intros r Hr. apply drop_duplicates_seen_elem in Hr as [Hr _].
      rewrite <- (sort_values_perm (concat df_list)). exact Hr.
    + intros t Ht. destruct (decide (t ∈ map fst
        (drop_duplicates_seen [] (sort_values (concat df_list))))) as [| Hn];
        [assumption |].
      exfalso. apply first_flow_None in Hn. rewrite Hfirst in Hn.
      apply first_flow_None in Hn. apply Hn.
      eapply elem_of_Permutation_proper; [| exact Ht].
      apply fmap_Permutation, sort_values_perm.
  - intros existing group saved Hi. unfold import_csv in Hi. split.
    + destruct existing as [[| df] |]; try (injection Hi as <-; apply sort_values_ascending).
      destruct (negb (df_empty df));
        [| injection Hi as <-; apply sort_values_ascending].
      destruct (ts_column df); try discriminate;
        injection Hi as <-; apply sort_values_ascending.
    + intros df -> Hne Hts. rewrite Hts in Hi.
      assert (He : df_empty df = false)
        by (unfold df_empty; destruct (records df); congruence).
      rewrite He in Hi. simpl in Hi. injection Hi as <-.
      set (combined := records df ++ sort_values group).
      assert (Hfirst : forall t,
                first_flow t (sort_values (drop_duplicates_keep_last combined))
                = last_flow t combined).
      { intros t. rewrite <- keep_last_first. symmetry.
        apply first_flow_perm; [apply keep_last_unique |].
        symmetry. apply sort_values_perm. }
      split; [apply sorted_unique_strict, keep_last_unique |].
      split; [exact Hfirst |].
      intros t v Ht Hv. rewrite Hfirst in Hv. unfold combined in Hv.
      rewrite last_flow_app in Hv.
      destruct (last_flow t (sort_values group)) as [w |] eqn:E.
      * injection Hv as <-. unfold last_flow in E.
        apply first_flow_Some_elem in E. apply list_elem_of_In in E.
        apply in_rev in E. apply list_elem_of_In in E.
        rewrite <- (sort_values_perm group). exact E.
      * exfalso. apply last_flow_None in E. apply E.
        eapply elem_of_Permutation_proper; [| exact Ht].
        apply fmap_Permutation, sort_values_perm.
Qed.
End ConsolidationClaims.

(** The insertion sort is a sort, and it keeps the order of rows with
    equal timestamps. *)
Lemma insert_row_perm {num} (r : Z * num) (l : list (Z * num)) :
  insert_row r l ≡ₚ r :: l.
Proof.
  induction l as [| y l IH]; [reflexivity |].
  simpl. destruct (fst r <=? fst y); [reflexivity |].
  rewrite IH. apply Permutation_swap.
Qed.

Lemma insertion_sort_perm {num} (l : list (Z * num)) : insertion_sort l ≡ₚ l.
Proof.
  induction l as [| r l IH]; [reflexivity |].
  simpl. rewrite insert_row_perm, IH. reflexivity.
Qed.

Lemma insert_row_ascending {num} (r : Z * num) (l : list (Z * num)) :
  ascending l -> ascending (insert_row r l).
Proof.
  unfold ascending. intros Hs.
  induction Hs as [| y l Hs IH Hall]; simpl; [repeat constructor |].
  destruct (Z.leb_spec (fst r) (fst y)) as [Hle | Hgt].
  - constructor; [constructor; assumption |].
    constructor; [exact Hle |].
    rewrite Forall_forall in Hall |- *. intros z Hz.
    specialize (Hall z Hz). simpl in Hall. lia.
  - constructor; [exact IH |].
    rewrite Forall_forall in Hall |- *. intros z Hz.
    rewrite insert_row_perm in Hz. apply elem_of_cons in Hz as [-> | Hz];
      [lia | apply Hall, Hz].
Qed.

Lemma insertion_sort_ascending {num} (l : list (Z * num)) :
  ascending (insertion_sort l).
Proof.
  induction l as [| r l IH]; [constructor |].
  simpl. apply insert_row_ascending, IH.
Qed.

Lemma insert_row_first {num} (t : Z) (r : Z * num) (l : list (Z * num)) :
  first_flow t (insert_row r l) = first_flow t (r :: l).
Proof.
  induction l as [| y l IH]; [reflexivity |].
  simpl. destruct (Z.leb_spec (fst r) (fst y)) as [Hle | Hgt]; [reflexivity |].
  rewrite !first_flow_cons, IH, first_flow_cons.
  destruct (Z.eqb_spec (fst y) t), (Z.eqb_spec (fst r) t); try reflexivity; lia.
Qed.

(** With the insertion sort the fetch path keeps, for every timestamp, the
    observation collected first. *)
Lemma insertion_sort_first {num} (t : Z) (l : list (Z * num)) :
  first_flow t (insertion_sort l) = first_flow t l.
Proof.
  induction l as [| r l IH]; [reflexivity |].
  simpl. rewrite insert_row_first, !first_flow_cons, IH. reflexivity.
Qed.

(** C2 (as stated) fails.  Two months bring an observation for the same
    timestamp, first with flow 1 and then with flow 2: the fetch path keeps
    the one collected first.  A CSV with the same two rows, for a pair that
    has no file yet, is written with both rows, whatever the sort. *)
Lemma fetch_keeps_earlier_observation :
  fetch_data insertion_sort [[(0, 1)]; [(0, 2)]] = Some [(0, 1)]
  /\ last_flow 0 (concat [[(0, 1)]; [(0, 2)]]) = Some 2
  /\ forall sort : list (Z * Z) -> list (Z * Z),
       (forall l, sort l ≡ₚ l) ->
       exists saved, import_csv sort None [(0, 1); (0, 2)] = Some saved
                     /\ length saved = 2%nat.
Proof.
  split; [reflexivity |]. split; [reflexivity |].
  intros sort Hperm. eexists. split; [reflexivity |].
  rewrite (Permutation_length (Hperm _)). reflexivity.
Qed.

Lemma consolidated_series_sorted_one_per_timestamp_witness :
  let stored := mkDataFrame TzAware [(0, 1); (3600, 7); (0, 3)] in
  let saved := [(0, 4); (1800, 5); (3600, 7)] in
  import_csv insertion_sort (Some (Json stored)) [(1800, 5); (0, 2); (0, 4)]
    = Some saved
  /\ strictly_ascending saved
  /\ first_flow 0 saved = Some 4.
Proof.
  intros stored saved.
  assert (Hi : import_csv insertion_sort (Some (Json stored))
                 [(1800, 5); (0, 2); (0, 4)] = Some saved) by reflexivity.
  split; [exact Hi |].
  pose proof (consolidated_series_sorted_one_per_timestamp (num := Z)
                insertion_sort insertion_sort_perm insertion_sort_ascending)
    as [_ Hcsv].
  destruct (Hcsv _ _ _ Hi) as [_ Hmerge].
  destruct (Hmerge stored eq_refl ltac:(discriminate) eq_refl) as (Hs & Hf & _).
  split; [exact Hs |]. rewrite Hf. reflexivity.
Defined.

(** * Further properties of the code *)

(** ** File names *)

Lemma append_underscore_inj (a a' x x' : string) :
  has_char "_"%char a = false -> has_char "_"%char a' = false ->
  a +:+ String "_" x = a' +:+ String "_" x' -> a = a' /\ x = x'.
Proof.
  revert a'. induction a as [| c a IH]; intros [| c' a'] Ha Ha' E; simpl in *.
  - injection E as ->. tauto.
  - injection E as <- _. simpl in Ha'. discriminate.
  - injection E as -> _. simpl in Ha. discriminate.
  - injection E as -> E. apply orb_false_iff in Ha as [_ Ha].
    apply orb_false_iff in Ha' as [_ Ha'].
    destruct (IH a' Ha Ha' E) as [-> ->]. tauto.
Qed.

Lemma append_length (s1 s2 : string) :
  String.length (s1 +:+ s2) = (String.length s1 + String.length s2)%nat.
Proof. induction s1 as [| c s1 IH]; simpl; [reflexivity | rewrite IH; reflexivity]. Qed.

Lemma append_inj_r (s1 s2 t : string) : s1 +:+ t = s2 +:+ t -> s1 = s2.
Proof.
  revert s2. induction s1 as [| c s1 IH]; intros [| c' s2] E; simpl in E.
  - reflexivity.
  - exfalso. apply (f_equal String.length) in E.
    simpl in E. rewrite !append_length in E. simpl in E. lia.
  - exfalso. apply (f_equal String.length) in E.
    simpl in E. rewrite !append_length in E. simpl in E. lia.
  - injection E as -> E. f_equal. apply IH, E.
Qed.

(** X1.  Two pairs whose origin codes hold no underscore have the same file
    exactly when they are the same pair. *)
Theorem flow_filename_inj (a b a' b' : string) :
  has_char "_"%char a = false -> has_char "_"%char a' = false ->
  flow_filename a b = flow_filename a' b' -> a = a' /\ b = b'.
Proof.
  intros Ha Ha' E. unfold flow_filename in E.
  apply (inj (String.append "data/flow_")) in E.
  change ("_" +:+ b +:+ ".json") with (String "_" (b +:+ ".json")) in E.
  change ("_" +:+ b' +:+ ".json") with (String "_" (b' +:+ ".json")) in E.
  apply append_underscore_inj in E as [-> E]; [| assumption | assumption].
  split; [reflexivity | apply (append_inj_r _ _ ".json"), E].
Qed.

(** Without the condition two pairs can share a file. *)
Example flow_filename_collision :
  flow_filename "A_B" "C" = flow_filename "A" "B_C".
Proof. reflexivity. Qed.

Lemma flow_filename_inj_witness : "BG" = "BG" /\ "RO" = "RO".
Proof.
  apply (flow_filename_inj "BG" "RO" "BG" "RO"); reflexivity.
Defined.

(** ** Area strings *)

Lemma split_char_not_nil (c : Ascii.ascii) (s : string) : split_char c s <> [].
Proof.
  destruct s as [| a s]; simpl; [discriminate |].
  destruct (Ascii.eqb a c); [discriminate |].
  destruct (split_char c s); discriminate.
Qed.

Lemma split_char_two_pieces (c : Ascii.ascii) (s : string) :
  has_char c s = true -> exists p q l, split_char c s = p :: q :: l.
Proof.
  induction s as [| a s IH]; simpl; [discriminate |].
  destruct (Ascii.eqb a c) eqn:Ea; simpl.
  - intros _. pose proof (split_char_not_nil c s) as Hne.
    destruct (split_char c s) as [| q l]; [contradiction | eauto].
  - intros Hs. destruct (IH Hs) as (p & q & l & ->). eauto.
Qed.



Lemma prefix_bzn_has_bar (s : string) :
  String.prefix "BZN|" s = true -> has_char "|"%char s = true.
Proof.
  destruct s as [| a1 [| a2 [| a3 [| a4 s]]]]; cbn [String.prefix];
    try discriminate;
    repeat (destruct (ascii_dec _ _); try discriminate).
  subst. reflexivity.
Qed.

Lemma contains_bzn_has_bar (s : string) :
  contains "BZN|" s = true -> has_char "|"%char s = true.
Proof.
  induction s as [| a s IH]; [discriminate |].
  intros H. cbn [contains] in H. apply orb_true_iff in H as [H | H].
  - apply prefix_bzn_has_bar, H.
  - cbn [has_char]. rewrite (IH H). apply orb_true_r.
Qed.




Example extract_country_code_examples :
  extract_country_code "BZN|RO" = Some "RO"
  /\ extract_country_code "CTA|RO" = Some "CTA|RO"
  /\ extract_country_code "RO" = Some "RO".
Proof. repeat split. Qed.

(** ** More on the completeness report *)

Lemma percent_nonneg (n h : Z) :
  0 <= n -> 0 < h -> (0 <= inject_Z n / inject_Z h * 100)%Q.
Proof.
  intros Hn Hh. destruct h as [| p | p]; try lia.
  unfold Qle, Qdiv, Qmult, Qinv, inject_Z. simpl. lia.
Qed.

Lemma percent_full (n h : Z) :
  0 < h -> h <= n -> (100 <= inject_Z n / inject_Z h * 100)%Q.
Proof.
  intros Hh Hn. destruct h as [| p | p]; try lia.
  unfold Qle, Qdiv, Qmult, Qinv, inject_Z. simpl. lia.
Qed.

Section AuditorBehaviour.
Context {num : Type}.
Variable tz_localize : Z -> Z.

(** X3.  The report says "Missing File" exactly when the file is absent, or
    is there with no record or without a timestamp field; in each of these
    cases [get_flow_data] returns [None] for the pair. *)
Theorem missing_file_status_iff (fs : FileSystem num) (a b : string) (s e : Z) :
  (status (audit tz_localize fs a b s e) = MissingFile
   <-> (fs (flow_filename a b) = None
        \/ exists df, fs (flow_filename a b) = Some (Json df)
                      /\ (records df = [] \/ ts_column df = NoTimestampColumn)))
  /\ (status (audit tz_localize fs a b s e) = MissingFile ->
      get_flow_data fs a b = None).
Proof.
  assert (Hiff : status (audit tz_localize fs a b s e) = MissingFile
            <-> (fs (flow_filename a b) = None
                 \/ exists df, fs (flow_filename a b) = Some (Json df)
                      /\ (records df = [] \/ ts_column df = NoTimestampColumn))).
  { destruct (fs (flow_filename a b)) as [[| df] |] eqn:Hfs.
    - unfold audit. rewrite Hfs. simpl. split; [discriminate |].
      intros [? | (df & ? & _)]; discriminate.
    - destruct (ts_column df) eqn:Hts, (records df) as [| r0 recs] eqn:Hrec;
        try (unfold audit; rewrite Hfs; destruct df; simpl in *; subst; simpl;
             split; [intros _; right; eexists; split; [reflexivity |]; simpl; tauto
                    | reflexivity]);
        try (unfold audit; rewrite Hfs; destruct df; simpl in *; subst; simpl;
             split; [discriminate |];
             intros [? | (df' & [= <-] & [? | ?])]; discriminate).
      rewrite (audit_aware tz_localize fs a b s e df Hfs Hts)
        by (rewrite Hrec; discriminate).
      cbv zeta. split.
      + destruct (_ =? 0); [discriminate |].
        destruct (_ =? 0); [discriminate |].
        destruct (Qlt_bool _ _); discriminate.
      + intros [? | (df' & [= <-] & [? | ?])]; congruence.
    - unfold audit. rewrite Hfs. simpl. tauto. }
  split; [exact Hiff |].
  intros Hs. apply Hiff in Hs. unfold get_flow_data.
  destruct Hs as [-> | (df & -> & Hdf)]; [reflexivity |].
  unfold get_flow_data_try, mbind, Exec_bind, read_json, mret, Exec_ret.
  unfold df_empty, has_timestamp.
  destruct Hdf as [-> | ->]; [reflexivity |].
  destruct (records df); reflexivity.
Qed.

(** X4.  When later days begin later, the percentage of every audit lies
    between 0 and 100. *)
Theorem completeness_within_bounds (fs : FileSystem num) (a b : string)
    (s e : Z) :
  (forall x y, x < y -> tz_localize x < tz_localize y) ->
  (0 <= completeness (audit tz_localize fs a b s e) <= 100)%Q.
Proof.
  intros Hmono. split; [| apply completeness_le_100].
  destruct (fs (flow_filename a b)) as [[| df] |] eqn:Hfs;
    [unfold audit; rewrite Hfs; simpl; discriminate | |
     unfold audit; rewrite Hfs; simpl; discriminate].
  destruct (ts_column df) eqn:Hts, (records df) as [| r0 recs] eqn:Hrec;
    try (unfold audit; rewrite Hfs; destruct df; simpl in *; subst; simpl;
         discriminate).
  rewrite (audit_aware tz_localize fs a b s e df Hfs Hts)
    by (rewrite Hrec; discriminate).
  cbv zeta.
  destruct (Z.eqb_spec (Z.of_nat (length (in_window tz_localize df s e))) 0)
    as [| Hn]; [simpl; discriminate |].
  destruct (Z.eqb_spec ((e - s) * 24) 0) as [| Hh]; [simpl; discriminate |].
  assert (Hse : s <= e).
  { destruct (in_window tz_localize df s e) as [| t w] eqn:Hw; [simpl in Hn; lia |].
    assert (Ht : t ∈ in_window tz_localize df s e) by (rewrite Hw; left).
    unfold in_window in Ht. apply list_elem_of_filter in Ht as [Ht _].
    destruct (Z.le_gt_cases s e) as [| Hgt]; [assumption |].
    apply Hmono in Hgt. lia. }
  assert (Hc : (0 <= py_min 100
                  (inject_Z (Z.of_nat (length (in_window tz_localize df s e)))
                   / inject_Z ((e - s) * 24) * 100))%Q).
  { unfold py_min. destruct (Qlt_bool _ _); [| discriminate].
    apply percent_nonneg; lia. }
  destruct (Qlt_bool 99 _); simpl; exact Hc.
Qed.


(** X7.  A "Partial" entry of a readable series names the days of the
    window, whatever the observations are: all of them, both ends
    included, when the window has at most ten days, otherwise their number
    and the first day. *)
Theorem partial_descriptor_shape (fs : FileSystem num) (a b : string)
    (s e : Z) (df : DataFrame num) :
  fs (flow_filename a b) = Some (Json df) ->
  ts_column df = TzAware ->
  records df <> [] ->
  s <= e ->
  status (audit tz_localize fs a b s e) = Partial ->
  missing_days (audit tz_localize fs a b s e)
  = if e - s + 1 <=? 10 then DaysList (seqZ s (e - s + 1))
    else DaysCount (Z.to_nat (e - s + 1)) s.
Proof.
  intros Hfs Hts Hne Hse Hp.
  rewrite (partial_lists_the_whole_window tz_localize fs a b s e df Hfs Hts Hne Hp).
  unfold describe_missing, date_range_D. cbn [stamps].
  assert (Hdays : map date_of (map (fun d => d * seconds_per_day)
                                   (seqZ s (e - s + 1)))
                  = seqZ s (e - s + 1)).
  { rewrite map_map. rewrite <- (map_id (seqZ s (e - s + 1))) at 2.
    apply map_ext. intros d. unfold date_of, seconds_per_day.
    apply Z.div_mul. discriminate. }
  rewrite length_map, length_seqZ, Hdays.
  rewrite (seqZ_cons s) by lia. cbn [map].
  rewrite <- (seqZ_cons s) by lia.
  replace (date_of (s * seconds_per_day)) with s
    by (unfold date_of, seconds_per_day; symmetry; apply Z.div_mul; discriminate).
  destruct (Z.leb_spec (e - s + 1) 10) as [Hle | Hgt].
  - rewrite (proj2 (Nat.ltb_ge _ _)) by lia. reflexivity.
  - rewrite (proj2 (Nat.ltb_lt _ _)) by lia. reflexivity.
Qed.
End AuditorBehaviour.

Lemma brussels_winter_increasing (x y : Z) :
  x < y -> brussels_winter x < brussels_winter y.
Proof. unfold brussels_winter, seconds_per_day. lia. Qed.

Lemma completeness_within_bounds_witness :
  let fs := one_file "BG" "RO" (Json (mkDataFrame TzAware (hourly 0 (brussels_winter 100) 30))) in
  (0 <= completeness (audit brussels_winter fs "BG" "RO" 100 102) <= 100)%Q.
Proof.
  intros fs.
  apply (completeness_within_bounds brussels_winter fs "BG" "RO" 100 102
           brussels_winter_increasing).
Defined.


Lemma partial_descriptor_shape_witness :
  let df := mkDataFrame TzAware (hourly 0 (brussels_winter 100) 30) in
  let fs := one_file "BG" "RO" (Json df) in
  status (audit brussels_winter fs "BG" "RO" 100 120) = Partial
  /\ missing_days (audit brussels_winter fs "BG" "RO" 100 120) = DaysCount 21 100.
Proof.
  intros df fs.
  assert (Hp : status (audit brussels_winter fs "BG" "RO" 100 120) = Partial)
    by (vm_compute; reflexivity).
  split; [exact Hp |].
  rewrite (partial_descriptor_shape brussels_winter fs "BG" "RO" 100 120 df
             eq_refl eq_refl ltac:(discriminate) ltac:(lia) Hp).
  reflexivity.
Defined.

(** ** The selectors of the sidebar *)

Lemma dict_get_set (k k' v : string) (d : list (string * string)) :
  dict_get k' (dict_set k v d)
  = if String.eqb k k' then Some v else dict_get k' d.
Proof.
  unfold dict_get. induction d as [| [k0 v0] d IH]; simpl.
  - destruct (String.eqb k k'); reflexivity.
  - destruct (String.eqb_spec k0 k) as [-> | Hne]; simpl.
    + destruct (String.eqb k k'); reflexivity.
    + destruct (String.eqb_spec k0 k') as [-> | Hne'].
      * rewrite (proj2 (String.eqb_neq k k')) by congruence. reflexivity.
      * exact IH.
Qed.





Section Dictionaries.
Variables key value : Country -> string.


Lemma dict_fold_get (countries : list Country) (d : list (string * string))
    (k v : string) :
  dict_get k (foldl (fun d c => dict_set (key c) (value c) d) d countries) = Some v ->
  (exists c, c ∈ countries /\ key c = k /\ value c = v) \/ dict_get k d = Some v.
Proof.
  revert d. induction countries as [| c cs IH]; intros d H; [right; exact H |].
  simpl in H. apply IH in H as [(c' & Hc' & Hk & Hv) | H].
  - left. exists c'. split; [right; exact Hc' | tauto].
  - rewrite dict_get_set in H. destruct (String.eqb_spec (key c) k) as [Hk | _].
    + injection H as <-. left. exists c. split; [left | tauto].
    + right. exact H.
Qed.

End Dictionaries.

(** X8.  Whatever name the "Select Country" box offers, the code it stands
    for is the code of a country of the topology: the search for the
    target's data finds one. *)
Theorem selected_code_is_a_country (countries : list Country)
    (country_name country_code : string) :
  dict_get country_name (country_map countries) = Some country_code ->
  exists c, target_data countries country_code = Some c /\ code c = country_code.
Proof.
  intros H. unfold country_map in H.
  apply (dict_fold_get name code) in H as [(c & Hc & _ & Hcode) | H];
    [| discriminate].
  unfold target_data.
  destruct (find (fun c0 => String.eqb (code c0) country_code) countries)
    as [c' |] eqn:E.
  - exists c'. split; [reflexivity |]. apply find_some in E as [_ E].
    apply String.eqb_eq, E.
  - exfalso. apply list_elem_of_In in Hc.
    pose proof (find_none _ _ E c Hc) as Hn. simpl in Hn.
    rewrite Hcode, String.eqb_refl in Hn. discriminate.
Qed.


Lemma selected_code_is_a_country_witness :
  dict_get "Greece" (country_map balkans) = Some "GR"
  /\ exists c, target_data balkans "GR" = Some c /\ code c = "GR".
Proof.
  split; [reflexivity |].
  apply (selected_code_is_a_country balkans "Greece" "GR"). reflexivity.
Defined.


(** Two countries with one name: the option of the second leads back to
    the first. *)
Example neighbor_option_shared_name :
  let cs := [mkCountry "XA" "Land" []; mkCountry "XB" "Land" []] in
  to_country_code cs (neighbor_option cs "XB") = "XA".
Proof. reflexivity. Qed.

(** ** Importing a CSV again *)

Section Reimport.
Context {num : Type}.
Variable sort_values : list (Z * num) -> list (Z * num).
Hypothesis sort_values_perm : forall l, sort_values l ≡ₚ l.
Hypothesis sort_values_ascending : forall l, ascending (sort_values l).

Lemma keep_last_not_nil (l : list (Z * num)) :
  l <> [] -> drop_duplicates_keep_last l <> [].
Proof.
  induction l as [| r l IH]; [congruence |]. intros _. simpl.
  case_bool_decide as Hr; [| discriminate].
  apply IH. intros ->. inversion Hr.
Qed.

Lemma sort_values_not_nil (l : list (Z * num)) : l <> [] -> sort_values l <> [].
Proof.
  intros Hl E. apply Hl. apply Permutation_nil_r. rewrite <- E.
  symmetry. apply sort_values_perm.
Qed.

Lemma last_flow_unique (t : Z) (l : list (Z * num)) :
  NoDup (map fst l) -> last_flow t l = first_flow t l.
Proof.
  intros Hnd. unfold last_flow. symmetry.
  apply first_flow_perm; [exact Hnd | apply Permutation_rev].
Qed.

Lemma strictly_ascending_unique (l : list (Z * num)) :
  strictly_ascending l -> NoDup (map fst l).
Proof.
  unfold strictly_ascending. intros Hs.
  induction Hs as [| r l Hs IH Hall]; simpl; constructor; [| exact IH].
  intros Hin. apply list_elem_of_fmap in Hin as (y & Hy & Hin).
  rewrite Forall_forall in Hall. specialize (Hall y Hin). simpl in Hall. lia.
Qed.

(** A series in strictly ascending order is determined by the flow it
    shows at each timestamp. *)
Lemma strictly_ascending_ext (l1 l2 : list (Z * num)) :
  strictly_ascending l1 -> strictly_ascending l2 ->
  (forall t, first_flow t l1 = first_flow t l2) -> l1 = l2.
Proof.
  intros H1. revert l2. unfold strictly_ascending in *.
  induction H1 as [| r1 l1 Hs1 IH Hall1]; intros l2 H2 Hext.
  - destruct l2 as [| r2 l2]; [reflexivity |].
    specialize (Hext (fst r2)). rewrite first_flow_cons, Z.eqb_refl in Hext.
    discriminate.
  - destruct l2 as [| r2 l2].
    + specialize (Hext (fst r1)). rewrite first_flow_cons, Z.eqb_refl in Hext.
      discriminate.
    + apply StronglySorted_inv in H2 as [Hs2 Hall2].
      rewrite Forall_forall in Hall1, Hall2.
      assert (Hn1 : forall t, t <= fst r1 -> first_flow t l1 = None).
      { intros t Ht. apply first_flow_None. intros Hin.
        apply list_elem_of_fmap in Hin as (y & -> & Hy).
        specialize (Hall1 y Hy). simpl in Hall1. lia. }
      assert (Hn2 : forall t, t <= fst r2 -> first_flow t l2 = None).
      { intros t Ht. apply first_flow_None. intros Hin.
        apply list_elem_of_fmap in Hin as (y & -> & Hy).
        specialize (Hall2 y Hy). simpl in Hall2. lia. }
      assert (Hk : fst r1 = fst r2).
      { destruct (Z.lt_trichotomy (fst r1) (fst r2)) as [Hlt | [E | Hgt]];
          [| exact E |].
        - specialize (Hext (fst r1)).
          rewrite !first_flow_cons, Z.eqb_refl in Hext.
          rewrite (proj2 (Z.eqb_neq _ _)), Hn2 in Hext by lia. discriminate.
        - specialize (Hext (fst r2)).
          rewrite !first_flow_cons, Z.eqb_refl in Hext.
          rewrite (proj2 (Z.eqb_neq _ _)), Hn1 in Hext by lia. discriminate. }
      assert (Hr : r1 = r2).
      { specialize (Hext (fst r1)). rewrite !first_flow_cons in Hext.
        rewrite <- Hk, Z.eqb_refl in Hext. injection Hext as Hv.
        destruct r1, r2; simpl in *; congruence. }
      subst r2. f_equal. apply IH; [exact Hs2 |].
      intros t. destruct (Z.eqb_spec (fst r1) t) as [E | Hne].
      * rewrite Hn1, Hn2 by lia. reflexivity.
      * specialize (Hext t). rewrite !first_flow_cons in Hext.
        rewrite (proj2 (Z.eqb_neq _ _) Hne) in Hext. exact Hext.
Qed.

(** What the merge of [import_csv] writes over the stored rows [stored]. *)
Lemma merge_first (stored group : list (Z * num)) (t : Z) :
  first_flow t (sort_values (drop_duplicates_keep_last (stored ++ sort_values group)))
  = match last_flow t group with
    | Some v => last_flow t (sort_values group)
    | None => last_flow t stored
    end.
Proof.
  rewrite <- (first_flow_perm t (drop_duplicates_keep_last _))
    by (apply keep_last_unique || (symmetry; apply sort_values_perm)).
  rewrite keep_last_first, last_flow_app.
  destruct (last_flow t (sort_values group)) as [v |] eqn:E.
  - destruct (last_flow t group) eqn:Eg; [reflexivity |].
    exfalso. apply last_flow_None in Eg.
    assert (Hn : last_flow t (sort_values group) = None).
    { apply last_flow_None. intros Hin. apply Eg.
      eapply elem_of_Permutation_proper; [| exact Hin].
      symmetry. apply fmap_Permutation, sort_values_perm. }
    congruence.
  - destruct (last_flow t group) eqn:Eg; [| reflexivity].
    exfalso. apply last_flow_None in E. apply E.
    assert (Hin : t ∈ map fst group).
    { destruct (decide (t ∈ map fst group)) as [| Hn]; [assumption |].
      apply last_flow_None in Hn. congruence. }
    eapply elem_of_Permutation_proper; [| exact Hin].
    apply fmap_Permutation, sort_values_perm.
Qed.

(** X10.  Importing the same rows a second time changes nothing, as soon as
    the first import left one row per timestamp (which the merge with a
    stored file always does): the file written the first time, read back,
    is written again as it is. *)
Theorem reimport_is_idempotent (existing : option (FileContent num))
    (group saved : list (Z * num)) :
  group <> [] ->
  import_csv sort_values existing group = Some saved ->
  strictly_ascending saved ->
  import_csv sort_values (Some (Json (mkDataFrame TzAware saved))) group
  = Some saved.
Proof.
  intros Hg Hi Hstrict.
  assert (Hfirst : forall t,
            first_flow t saved
            = match last_flow t group with
              | Some v => last_flow t (sort_values group)
              | None => first_flow t saved
              end).
  { intros t. destruct (last_flow t group) as [v |] eqn:Eg; [| reflexivity].
    assert (Hplain : saved = sort_values group ->
              first_flow t saved = last_flow t (sort_values group)).
    { intros ->. symmetry. apply last_flow_unique, strictly_ascending_unique, Hstrict. }
    unfold import_csv in Hi.
    destruct existing as [[| df] |]; try (injection Hi as <-; auto; fail).
    destruct (negb (df_empty df)); [| injection Hi as <-; auto].
    destruct (ts_column df); try discriminate; injection Hi as Hs; auto.
    rewrite <- Hs, merge_first, Eg. reflexivity. }
  assert (Hne : saved <> []).
  { unfold import_csv in Hi.
    destruct existing as [[| df] |];
      try (injection Hi as <-; apply sort_values_not_nil, Hg).
    destruct (df_empty df) eqn:Ee; simpl in Hi;
      [injection Hi as <-; apply sort_values_not_nil, Hg |].
    destruct (ts_column df); try discriminate;
      try (injection Hi as <-; apply sort_values_not_nil, Hg).
    injection Hi as <-. apply sort_values_not_nil, keep_last_not_nil.
    unfold df_empty in Ee. destruct (records df); [discriminate |]. discriminate. }
  unfold import_csv. cbn [ts_column records].
  assert (He : df_empty (mkDataFrame TzAware saved) = false)
    by (unfold df_empty; simpl; destruct saved; congruence).
  rewrite He. cbn [negb]. f_equal.
  apply strictly_ascending_ext; [| exact Hstrict |].
  - apply (sorted_unique_strict sort_values sort_values_perm sort_values_ascending).
    apply keep_last_unique.
  - intros t. rewrite merge_first, (Hfirst t).
    destruct (last_flow t group); [reflexivity |].
    apply last_flow_unique, strictly_ascending_unique, Hstrict.
Qed.

(** X11.  The merge loses no timestamp and invents none: the file written
    holds exactly the timestamps of the stored file and those of the new
    rows, and shows the stored flow wherever the new rows have none. *)
Theorem merge_keeps_every_timestamp (df : DataFrame num)
    (group saved : list (Z * num)) :
  records df <> [] ->
  ts_column df = TzAware ->
  import_csv sort_values (Some (Json df)) group = Some saved ->
  (forall t, t ∈ map fst saved <-> t ∈ map fst (records df) \/ t ∈ map fst group)
  /\ (forall t, t ∉ map fst group -> first_flow t saved = last_flow t (records df)).
Proof.
  intros Hne Hts Hi. unfold import_csv in Hi. rewrite Hts in Hi.
  assert (He : df_empty df = false)
    by (unfold df_empty; destruct (records df); congruence).
  rewrite He in Hi. simpl in Hi. injection Hi as <-.
  assert (Hout : forall t, t ∉ map fst group ->
            first_flow t (sort_values (drop_duplicates_keep_last
                                         (records df ++ sort_values group)))
            = last_flow t (records df)).
  { intros t Ht. rewrite merge_first. apply last_flow_None in Ht.
    rewrite Ht. reflexivity. }
  split; [| exact Hout].
  intros t. destruct (decide (t ∈ map fst group)) as [Hin | Hn].
  - split; [tauto |]. intros _.
    destruct (decide (t ∈ map fst (sort_values (drop_duplicates_keep_last
                (records df ++ sort_values group))))) as [| Hno]; [assumption |].
    exfalso. apply first_flow_None in Hno. rewrite merge_first in Hno.
    destruct (last_flow t group) eqn:Eg.
    + apply last_flow_None in Hno. apply Hno.
      eapply elem_of_Permutation_proper; [| exact Hin].
      apply fmap_Permutation, sort_values_perm.
    + apply last_flow_None in Eg. contradiction.
  - specialize (Hout t Hn). split.
    + intros Hin. left.
      destruct (decide (t ∈ map fst (records df))) as [| Hno]; [assumption |].
      exfalso. apply last_flow_None in Hno. rewrite Hno in Hout.
      apply first_flow_None in Hout. contradiction.
    + intros [Hin | Hin]; [| contradiction].
      destruct (decide (t ∈ map fst (sort_values (drop_duplicates_keep_last
                  (records df ++ sort_values group))))) as [| Hno]; [assumption |].
      exfalso. apply first_flow_None in Hno. rewrite Hno in Hout.
      symmetry in Hout. apply last_flow_None in Hout. contradiction.
Qed.
End Reimport.

Lemma reimport_is_idempotent_witness :
  let stored := mkDataFrame TzAware [(0, 1); (3600, 7); (0, 3)] in
  let group := [(1800, 5); (0, 2); (0, 4)] in
  let saved := [(0, 4); (1800, 5); (3600, 7)] in
  import_csv insertion_sort (Some (Json stored)) group = Some saved
  /\ import_csv insertion_sort (Some (Json (mkDataFrame TzAware saved))) group
     = Some saved.
Proof.
  intros stored group saved.
  assert (Hi : import_csv insertion_sort (Some (Json stored)) group = Some saved)
    by reflexivity.
  split; [exact Hi |].
  apply (reimport_is_idempotent insertion_sort insertion_sort_perm
           insertion_sort_ascending (Some (Json stored)) group saved);
    [discriminate | exact Hi |].
  unfold strictly_ascending, saved.
  repeat (constructor; [| repeat constructor; simpl; lia]). constructor.
Defined.

Lemma merge_keeps_every_timestamp_witness :
  let stored := mkDataFrame TzAware [(0, 1); (3600, 7); (0, 3)] in
  let group := [(1800, 5); (0, 2); (0, 4)] in
  let saved := [(0, 4); (1800, 5); (3600, 7)] in
  import_csv insertion_sort (Some (Json stored)) group = Some saved
  /\ first_flow 3600 saved = last_flow 3600 (records stored).
Proof.
  intros stored group saved.
  assert (Hi : import_csv insertion_sort (Some (Json stored)) group = Some saved)
    by reflexivity.
  split; [exact Hi |].
  destruct (merge_keeps_every_timestamp insertion_sort insertion_sort_perm
              stored group saved ltac:(discriminate) eq_refl Hi) as [_ Hout].
  apply Hout. simpl. rewrite !not_elem_of_cons.
  repeat split; try discriminate. apply not_elem_of_nil.
Defined.

(** ** The monthly requests *)

Section FetchPeriodsFacts.
Variable next_month : Z -> Z.
Hypothesis next_month_later : forall t, t < next_month t.

Lemma periods_loop_tiling (fuel : nat) (full_end current : Z) :
  (Z.to_nat (full_end - current) <= fuel)%nat ->
  exists periods,
    periods_loop next_month fuel full_end current = Some periods
    /\ tiling current full_end periods
    /\ Forall (fun p => snd p = Z.min (next_month (fst p)) full_end) periods.
Proof.
  revert current. induction fuel as [| fuel IH]; intros current Hfuel.
  - exists []. simpl. destruct (Z.ltb_spec current full_end); [lia |].
    split; [reflexivity |]. split; [lia | constructor].
  - simpl. destruct (Z.ltb_spec current full_end) as [Hlt | Hge].
    + pose proof (next_month_later current) as Hnext.
      destruct (IH (next_month current) ltac:(lia)) as (ps & -> & Ht & Hall).
      eexists. split; [reflexivity |]. simpl.
      destruct (Z.ltb_spec full_end (next_month current)) as [Hover | Hin].
      * assert (ps = []) as ->.
        { destruct ps as [| [x y] ps]; [reflexivity |].
          simpl in Ht. lia. }
        simpl.
        split; [split; [reflexivity | split; [lia | split; [lia | lia]]] |].
        constructor; [simpl; lia | constructor].
      * split; [split; [reflexivity | split; [lia | split; [lia | exact Ht]]] |].
        constructor; [simpl; lia | exact Hall].
    + exists []. split; [reflexivity |]. split; [simpl; lia | constructor].
Qed.

(** X12.  When a month begins after any instant of the month before, the
    loop ends within as many rounds as the range has units of time, and its
    periods follow one another without gap or overlap from [full_start] to
    [full_end]; each ends at the next begin of a month or, the last one, at
    [full_end]; a range that is empty gives no period. *)
Theorem periods_tile_the_range (full_start full_end : Z) (fuel : nat) :
  (Z.to_nat (full_end - full_start) <= fuel)%nat ->
  exists periods,
    periods_loop next_month fuel full_end full_start = Some periods
    /\ tiling full_start full_end periods
    /\ Forall (fun p => snd p = Z.min (next_month (fst p)) full_end) periods
    /\ (full_end <= full_start -> periods = []).
Proof.
  intros Hfuel.
  destruct (periods_loop_tiling fuel full_end full_start Hfuel)
    as (ps & Hps & Ht & Hall).
  exists ps. split; [exact Hps |]. split; [exact Ht |]. split; [exact Hall |].
  intros Hempty. destruct ps as [| [x y] ps]; [reflexivity |].
  simpl in Ht. lia.
Qed.
End FetchPeriodsFacts.

Lemma thirty_days_later (t : Z) : t < thirty_days t.
Proof.
  unfold thirty_days.
  pose proof (Z.div_mod t 2592000 ltac:(lia)).
  pose proof (Z.mod_pos_bound t 2592000 ltac:(lia)). lia.
Qed.

Lemma periods_tile_the_range_witness :
  periods_loop thirty_days 100 6000000 0
  = Some [(0, 2592000); (2592000, 5184000); (5184000, 6000000)]
  /\ exists periods,
       periods_loop thirty_days (Z.to_nat (6000000 - 0)) 6000000 0 = Some periods
       /\ tiling 0 6000000 periods
       /\ Forall (fun p => snd p = Z.min (thirty_days (fst p)) 6000000) periods
       /\ (6000000 <= 0 -> periods = []).
Proof.
  split; [reflexivity |].
  apply (periods_tile_the_range thirty_days thirty_days_later 0 6000000). lia.
Defined.

(** ** The data store of [fetch_data] *)

Section FetchStoreFacts.
Context {num : Type}.
Variable fetch_flow_for_month :
  string -> string -> Z * Z -> option (list (Z * num)).

Lemma init_data_store_lookup (countries : list Country) (e : string * string) :
  e ∈ edges countries -> init_data_store (num := num) countries !! e = Some [].
Proof.
  unfold init_data_store.
  assert (H : forall l (store : gmap (string * string) (list (list (Z * num)))),
            e ∈ l \/ store !! e = Some [] ->
            foldl (fun store e => <[e := []]> store) store l !! e = Some []).
  { induction l as [| x l IH]; intros store Hin; simpl.
    - destruct Hin as [Hin | Hin]; [inversion Hin | exact Hin].
    - apply IH. destruct (decide (x = e)) as [-> | Hne].
      + right. apply lookup_insert_eq.
      + destruct Hin as [Hin | Hin].
        * apply elem_of_cons in Hin as [-> | Hin]; [contradiction | left; exact Hin].
        * right. rewrite lookup_insert_ne by exact Hne. exact Hin. }
  intros Hin. apply H. left. exact Hin.
Qed.

Lemma collect_month_lookup
    (store : gmap (string * string) (list (list (Z * num))))
    (completed : list (string * string)) (period : Z * Z) (e : string * string) :
  NoDup completed ->
  collect_month fetch_flow_for_month store completed period !! e
  = if decide (e ∈ completed)
    then match fetch_flow_for_month (fst e) (snd e) period with
         | Some df => (fun df_list => df_list ++ [df]) <$> store !! e
         | None => store !! e
         end
    else store !! e.
Proof.
  unfold collect_month. intros Hnd. revert store.
  induction Hnd as [| x l Hx Hnd IH]; intros store; simpl.
  - destruct (decide (e ∈ [])) as [Hin | _]; [inversion Hin | reflexivity].
  - rewrite IH. clear IH.
    destruct (decide (e = x)) as [-> | Hne].
    + rewrite decide_False by exact Hx.
      destruct (decide (x ∈ x :: l)) as [_ | Hout]; [| exfalso; apply Hout; left].
      destruct (fetch_flow_for_month (fst x) (snd x) period); [| reflexivity].
      apply lookup_alter_eq.
    + assert (Hsame : match fetch_flow_for_month (fst x) (snd x) period with
                      | Some df => alter (fun df_list => df_list ++ [df]) x store
                      | None => store
                      end !! e = store !! e).
      { destruct (fetch_flow_for_month (fst x) (snd x) period); [| reflexivity].
        apply lookup_alter_ne. congruence. }
      rewrite Hsame.
      destruct (decide (e ∈ l)) as [Hin | Hout],
               (decide (e ∈ x :: l)) as [Hin' | Hout']; try reflexivity.
      * exfalso. apply Hout'. right. exact Hin.
      * exfalso. apply elem_of_cons in Hin' as [-> | Hin']; contradiction.
Qed.

(** X13.  When every pair is listed once in the topology, the frames the
    data store holds for a pair are the successful answers for that pair
    in the order of the periods, in whatever order the requests of a month
    complete; so is the file written from them, and a pair without any
    answer gets no file. *)
Theorem data_store_ignores_completion_order
    (sort_values : list (Z * num) -> list (Z * num))
    (countries : list Country)
    (months : list (list (string * string) * (Z * Z))) (e : string * string) :
  NoDup (edges countries) ->
  Forall (fun m => fst m ≡ₚ edges countries) months ->
  e ∈ edges countries ->
  let answers :=
    omap (fun m => fetch_flow_for_month (fst e) (snd e) (snd m)) months in
  collect_all fetch_flow_for_month countries months !! e = Some answers
  /\ fetch_save sort_values (collect_all fetch_flow_for_month countries months) e
     = fetch_data sort_values answers
  /\ (answers = [] ->
      fetch_save sort_values (collect_all fetch_flow_for_month countries months) e
      = None).
Proof.
  intros Hnd Hperm He answers.
  assert (Hstore : collect_all fetch_flow_for_month countries months !! e
                   = Some answers).
  { unfold collect_all. subst answers.
    induction months as [| m months IH] using rev_ind.
    - simpl. apply init_data_store_lookup, He.
    - apply Forall_app in Hperm as [Hperm Hm].
      rewrite Forall_singleton in Hm.
      rewrite foldl_app. simpl.
      assert (Hnd' : NoDup (fst m)).
      { eapply NoDup_Permutation_proper; [exact Hm | exact Hnd]. }
      assert (He' : e ∈ fst m).
      { eapply elem_of_Permutation_proper; [exact Hm | exact He]. }
      rewrite collect_month_lookup by exact Hnd'.
      rewrite decide_True by exact He'.
      rewrite (IH Hperm), omap_app. simpl.
      destruct (fetch_flow_for_month (fst e) (snd e) (snd m)); simpl.
      + reflexivity.
      + rewrite app_nil_r. reflexivity. }
  split; [exact Hstore |].
  unfold fetch_save. rewrite Hstore. simpl.
  split; [reflexivity |]. intros ->. reflexivity.
Qed.
End FetchStoreFacts.

Lemma data_store_ignores_completion_order_witness :
  let answer (a b : string) (p : Z * Z) :=
    if String.eqb a "GR" then None else Some [(fst p, 1)] in
  let months :=
    [([("BG", "RO"); ("BG", "GR"); ("GR", "BG")], (0, 10));
     ([("GR", "BG"); ("BG", "GR"); ("BG", "RO")], (10, 20))] in
  collect_all answer balkans months !! ("BG", "GR") = Some [[(0, 1)]; [(10, 1)]]
  /\ fetch_save insertion_sort (collect_all answer balkans months) ("BG", "GR")
     = Some [(0, 1); (10, 1)]
  /\ fetch_save insertion_sort (collect_all answer balkans months) ("GR", "BG")
     = None.
Proof.
  intros answer months.
  assert (Hnd : NoDup (edges balkans)).
  { simpl.
    repeat (apply NoDup_cons_2;
            [intros H; repeat (apply elem_of_cons in H as [H | H];
                               [discriminate H |]); inversion H |]).
    apply NoDup_nil_2. }
  assert (Hperm : Forall (fun m => fst m ≡ₚ edges balkans) months).
  { constructor; [reflexivity |]. constructor; [| constructor]. simpl.
    symmetry. apply (Permutation_rev [("BG", "RO"); ("BG", "GR"); ("GR", "BG")]). }
  destruct (data_store_ignores_completion_order answer insertion_sort balkans
              months ("BG", "GR") Hnd Hperm ltac:(right; left))
    as (H1 & H2 & _).
  destruct (data_store_ignores_completion_order answer insertion_sort balkans
              months ("GR", "BG") Hnd Hperm ltac:(right; right; left))
    as (_ & _ & H3).
  split; [exact H1 |]. split; [rewrite H2; reflexivity |].
  apply H3. reflexivity.
Defined.

(** ** Date filter and aggregations *)

Section AggregatorFacts.
Context {num : Type}.
Implicit Types (rows : list (Z * num)).

Lemma foldr_min_spec (a : Z) (l : list Z) :
  foldr Z.min a l ∈ a :: l /\ Forall (fun x => foldr Z.min a l <= x) (a :: l).
Proof.
  induction l as [| x l [IHin IHall]]; simpl.
  - split; [left | repeat constructor; lia].
  - apply Forall_cons in IHall as [Ha Hl]. split.
    + destruct (Z.min_spec x (foldr Z.min a l)) as [[_ ->] | [_ ->]].
      * right. left.
      * apply elem_of_cons in IHin as [-> | IHin]; [left | right; right; exact IHin].
    + repeat constructor; try lia.
      eapply Forall_impl; [exact Hl |]. simpl. intros y Hy. lia.
Qed.

Lemma foldr_max_spec (a : Z) (l : list Z) :
  foldr Z.max a l ∈ a :: l /\ Forall (fun x => x <= foldr Z.max a l) (a :: l).
Proof.
  induction l as [| x l [IHin IHall]]; simpl.
  - split; [left | repeat constructor; lia].
  - apply Forall_cons in IHall as [Ha Hl]. split.
    + destruct (Z.max_spec x (foldr Z.max a l)) as [[_ ->] | [_ ->]].
      * apply elem_of_cons in IHin as [-> | IHin]; [left | right; right; exact IHin].
      * right. left.
    + repeat constructor; try lia.
      eapply Forall_impl; [exact Hl |]. simpl. intros y Hy. lia.
Qed.

Lemma index_min_spec rows (lo : Z) :
  index_min rows = Some lo ->
  lo ∈ map fst rows /\ forall r, r ∈ rows -> lo <= fst r.
Proof.
  destruct rows as [| r rows]; [discriminate |]. intros [= <-].
  destruct (foldr_min_spec (fst r) (map fst rows)) as [Hin Hall].
  split; [exact Hin |]. intros y Hy. rewrite Forall_forall in Hall.
  apply Hall. apply (list_elem_of_fmap_2 fst) in Hy. exact Hy.
Qed.

Lemma index_max_spec rows (hi : Z) :
  index_max rows = Some hi ->
  hi ∈ map fst rows /\ forall r, r ∈ rows -> fst r <= hi.
Proof.
  destruct rows as [| r rows]; [discriminate |]. intros [= <-].
  destruct (foldr_max_spec (fst r) (map fst rows)) as [Hin Hall].
  split; [exact Hin |]. intros y Hy. rewrite Forall_forall in Hall.
  apply Hall. apply (list_elem_of_fmap_2 fst) in Hy. exact Hy.
Qed.

Lemma filter_all (P : Z * num -> Prop) `{!forall r, Decision (P r)} rows :
  (forall r, r ∈ rows -> P r) -> filter P rows = rows.
Proof.
  induction rows as [| r rows IH]; intros Hall; [reflexivity |].
  rewrite filter_cons, decide_True by (apply Hall; left).
  f_equal. apply IH. intros y Hy. apply Hall. right. exact Hy.
Qed.

(** X14.  The date range the "Single Flow" view starts with, from the date
    of the first timestamp to the date of the last, keeps every row of the
    frame. *)
Theorem default_date_range_keeps_all rows (lo hi : Z) :
  index_min rows = Some lo ->
  index_max rows = Some hi ->
  date_mask (date_of lo) (date_of hi) rows = rows.
Proof.
  intros Hlo Hhi. apply index_min_spec in Hlo as [_ Hlo].
  apply index_max_spec in Hhi as [_ Hhi].
  unfold date_mask. apply filter_all. intros r Hr.
  unfold date_of, seconds_per_day.
  split; apply Z.div_le_mono; try lia; [apply Hlo | apply Hhi]; exact Hr.
Qed.
End AggregatorFacts.

Lemma default_date_range_keeps_all_witness :
  let rows := [(90000, 5); (100, 7); (200000, 1)] in
  index_min rows = Some 100 /\ index_max rows = Some 200000
  /\ date_mask 0 2 rows = rows.
Proof.
  intros rows. split; [reflexivity |]. split; [reflexivity |].
  apply (default_date_range_keeps_all rows 100 200000); reflexivity.
Defined.

Section ResampleFacts.
Context {num : Type}.
Variables (period_of label : Z -> Z) (agg : list num -> num).
Implicit Types (rows : list (Z * num)).


Lemma filter_nil_concat (l : list Z) :
  concat (map (fun _ : Z => @nil (Z * num)) l) = [].
Proof. induction l; simpl; [reflexivity | assumption]. Qed.

Lemma bins_skip (periods : list Z) (r : Z * num) rows :
  period_of (fst r) ∉ periods ->
  concat (map (fun p => filter (fun r => period_of (fst r) = p) (r :: rows)) periods)
  = concat (map (fun p => filter (fun r => period_of (fst r) = p) rows) periods).
Proof.
  induction periods as [| q periods IH]; intros Hq; [reflexivity |].
  apply not_elem_of_cons in Hq as [Hq' Hq].
  simpl. rewrite filter_cons, decide_False by congruence.
  rewrite (IH Hq). reflexivity.
Qed.

Lemma bins_cons (periods : list Z) (r : Z * num) rows :
  NoDup periods ->
  period_of (fst r) ∈ periods ->
  concat (map (fun p => filter (fun r => period_of (fst r) = p) (r :: rows)) periods)
  ≡ₚ r :: concat (map (fun p => filter (fun r => period_of (fst r) = p) rows) periods).
Proof.
  intros Hnd. induction Hnd as [| q periods Hq Hnd IH]; intros Hin;
    [inversion Hin |].
  simpl. rewrite filter_cons.
  destruct (decide (period_of (fst r) = q)) as [E | Hne].
  - simpl. constructor. rewrite bins_skip by (rewrite E; exact Hq). reflexivity.
  - apply elem_of_cons in Hin as [Hin | Hin]; [contradiction |].
    rewrite (IH Hin). symmetry. apply Permutation_middle.
Qed.

(** The bins of a list of periods without repetition that holds the period
    of every row are a rearrangement of the rows. *)
Lemma bins_partition (periods : list Z) rows :
  NoDup periods ->
  (forall r, r ∈ rows -> period_of (fst r) ∈ periods) ->
  concat (map (fun p => filter (fun r => period_of (fst r) = p) rows) periods)
  ≡ₚ rows.
Proof.
  intros Hnd. induction rows as [| r rows IH]; intros Hall.
  - simpl. clear. induction periods; simpl; [reflexivity | assumption].
  - rewrite bins_cons by (exact Hnd || (apply Hall; left)).
    constructor. apply IH. intros y Hy. apply Hall. right. exact Hy.
Qed.

(** X15.  Aggregation keeps the total: with periods that follow the order
    of time and an aggregate that ignores the order of its values and can
    be taken bin by bin (an exact sum), the aggregate of the resampled
    column is the aggregate of the column. *)
Theorem resample_keeps_total rows :
  (forall x y, x <= y -> period_of x <= period_of y) ->
  (forall l l' : list num, l ≡ₚ l' -> agg l = agg l') ->
  (forall ls : list (list num), agg (concat ls) = agg (map agg ls)) ->
  agg (map snd (resample period_of label agg rows)) = agg (map snd rows).
Proof.
  intros Hmono Hperm Hconcat. unfold resample.
  destruct (index_min rows) as [lo |] eqn:Hlo;
    [| destruct rows; [reflexivity | discriminate]].
  destruct (index_max rows) as [hi |] eqn:Hhi;
    [| destruct rows; discriminate].
  apply index_min_spec in Hlo as [_ Hlo]. apply index_max_spec in Hhi as [_ Hhi].
  rewrite map_map. cbn [snd].
  rewrite <- (map_map (bin period_of rows) agg), <- Hconcat.
  apply Hperm. unfold bin.
  rewrite <- (map_map (fun p => filter (fun r => period_of (fst r) = p)
                                      (insertion_sort rows)) (map snd)).
  rewrite <- concat_map. apply fmap_Permutation.
  rewrite bins_partition; [apply insertion_sort_perm | apply NoDup_seqZ |].
  intros r Hr. rewrite insertion_sort_perm in Hr.
  apply elem_of_seqZ.
  pose proof (Hmono _ _ (Hlo r Hr)). pose proof (Hmono _ _ (Hhi r Hr)). lia.
Qed.

End ResampleFacts.

(** The daily calendar and the exact sum meet the conditions. *)
Lemma date_of_monotone (x y : Z) : x <= y -> date_of x <= date_of y.
Proof. intros H. unfold date_of, seconds_per_day. apply Z.div_le_mono; lia. Qed.



Lemma zsum_app (l1 l2 : list Z) : zsum (l1 ++ l2) = zsum l1 + zsum l2.
Proof. unfold zsum. induction l1 as [| x l1 IH]; simpl; lia. Qed.

Lemma zsum_perm (l l' : list Z) : l ≡ₚ l' -> zsum l = zsum l'.
Proof. unfold zsum. induction 1; simpl; lia. Qed.

Lemma zsum_concat (ls : list (list Z)) : zsum (concat ls) = zsum (map zsum ls).
Proof.
  induction ls as [| l ls IH]; [reflexivity |].
  simpl. rewrite zsum_app, IH. reflexivity.
Qed.

Lemma resample_keeps_total_witness :
  let rows := [(90000, 5); (100, 7); (300000, 1)] in
  resample date_of day_label zsum rows
  = [(0, 7); (86400, 5); (172800, 0); (259200, 1)]
  /\ zsum (map snd (resample date_of day_label zsum rows)) = zsum (map snd rows).
Proof.
  intros rows. split; [reflexivity |].
  apply (resample_keeps_total date_of day_label zsum rows
           date_of_monotone zsum_perm zsum_concat).
Defined.


(** ** The hourly profile *)

Section ProfileFacts.
Context {num : Type}.

Lemma strictly_ascending_relabel (g : Z -> num) (l : list (Z * num)) :
  strictly_ascending l ->
  strictly_ascending (map (fun h => (h, g h)) (map fst l)).
Proof.
  unfold strictly_ascending. intros Hs.
  induction Hs as [| r l Hs IH Hall]; simpl; constructor; [exact IH |].
  rewrite Forall_forall in Hall |- *. intros y Hy.
  apply list_elem_of_fmap in Hy as (h & -> & Hh).
  apply list_elem_of_fmap in Hh as (z & -> & Hz).
  simpl. apply (Hall z Hz).
Qed.

Lemma strictly_ascending_length (a b : Z) (l : list (Z * num)) :
  strictly_ascending l ->
  (forall r, r ∈ l -> a <= fst r < b) ->
  Z.of_nat (length l) <= Z.max 0 (b - a).
Proof.
  unfold strictly_ascending. intros Hs. revert a.
  induction Hs as [| r l Hs IH Hall]; intros a Hin; simpl length; [lia |].
  rewrite Forall_forall in Hall.
  pose proof (Hin r ltac:(left)) as Hr.
  specialize (IH (fst r + 1)).
  assert (Htail : forall y, y ∈ l -> fst r + 1 <= fst y < b).
  { intros y Hy. specialize (Hall y Hy). simpl in Hall.
    pose proof (Hin y ltac:(right; exact Hy)). lia. }
  specialize (IH Htail). lia.
Qed.

(** X17.  The hourly profile has one row for each hour of the day in which
    the frame has a row and none for the others; its hours are distinct, in
    ascending order and between 0 and 23, so it has at most 24 rows. *)
Theorem hourly_profile_hours (mean : list num -> num) (rows : list (Z * num)) :
  strictly_ascending (hourly_profile mean rows)
  /\ (length (hourly_profile mean rows) <= 24)%nat
  /\ forall h, h ∈ map fst (hourly_profile mean rows)
               <-> 0 <= h < 24 /\ exists r, r ∈ rows /\ hour_of (fst r) = h.
Proof.
  unfold hourly_profile.
  set (keyed := map (fun r => (hour_of (fst r), snd r)) rows).
  set (kept := drop_duplicates (insertion_sort keyed)).
  assert (Hstrict : strictly_ascending kept)
    by (apply drop_duplicates_seen_strict, insertion_sort_ascending).
  assert (Hkeys : forall h, h ∈ map fst kept
                    <-> exists r, r ∈ rows /\ hour_of (fst r) = h).
  { intros h.
    assert (Hf : first_flow h kept = first_flow h keyed).
    { unfold kept, drop_duplicates.
      rewrite drop_duplicates_seen_first by apply not_elem_of_nil.
      apply insertion_sort_first. }
    assert (Hk : h ∈ map fst kept <-> h ∈ map fst keyed).
    { destruct (decide (h ∈ map fst kept)) as [H1 | H1],
               (decide (h ∈ map fst keyed)) as [H2 | H2]; try tauto.
      - apply first_flow_None in H2. rewrite <- Hf in H2.
        apply first_flow_None in H2. contradiction.
      - apply first_flow_None in H1. rewrite Hf in H1.
        apply first_flow_None in H1. contradiction. }
    rewrite Hk. unfold keyed. rewrite map_map. simpl.
    rewrite list_elem_of_fmap. split.
    - intros (r & -> & Hr). eauto.
    - intros (r & Hr & <-). eauto. }
  assert (Hrange : forall h, h ∈ map fst kept -> 0 <= h < 24).
  { intros h Hh. apply Hkeys in Hh as (r & _ & <-).
    unfold hour_of. apply Z.mod_pos_bound. lia. }
  split; [apply strictly_ascending_relabel, Hstrict |].
  split.
  - rewrite !length_map.
    pose proof (strictly_ascending_length 0 24 kept Hstrict) as Hlen.
    assert (Hall : forall r, r ∈ kept -> 0 <= fst r < 24)
      by (intros r Hr; apply Hrange, (list_elem_of_fmap_2 fst), Hr).
    specialize (Hlen Hall). lia.
  - intros h. rewrite map_map. simpl. rewrite map_id.
    split.
    + intros Hh. split; [apply Hrange, Hh | apply Hkeys, Hh].
    + intros [_ Hh]. apply Hkeys, Hh.
Qed.
End ProfileFacts.

(** ** The CSV import script as a whole *)

Lemma extract_country_code_is_Some (area_str : string) :
  is_Some (extract_country_code area_str).
Proof.
  unfold extract_country_code.
  destruct (contains "BZN|" area_str) eqn:E; [| eauto].
  apply contains_bzn_has_bar, (split_char_two_pieces "|") in E
    as (p & q & l & ->). eauto.
Qed.

Lemma area_code_None (cell : option string) :
  area_code cell = None <-> cell = None.
Proof.
  destruct cell as [s |]; simpl; [| tauto].
  destruct (extract_country_code_is_Some s) as [c ->].
  split; discriminate.
Qed.

Lemma omap_filter {A B} (f : A -> option B) (P : A -> Prop)
    `{!forall x, Decision (P x)} (l : list A) :
  (forall x, ~ P x -> f x = None) -> omap f (filter P l) = omap f l.
Proof.
  intros Hf. induction l as [| x l IH]; [reflexivity |].
  rewrite filter_cons. destruct (decide (P x)) as [Hx | Hx].
  - change (omap f (x :: filter P l))
      with (match f x with
            | Some y => y :: omap f (filter P l)
            | None => omap f (filter P l)
            end).
    rewrite IH. reflexivity.
  - rewrite IH.
    change (omap f (x :: l))
      with (match f x with Some y => y :: omap f l | None => omap f l end).
    rewrite (Hf x Hx). reflexivity.
Qed.

Section ImportScriptFacts.
Context {num : Type}.
Variable sort_values : list (Z * num) -> list (Z * num).

Local Abbreviation import_csv_file' := (import_csv_file sort_values).
Local Abbreviation save_group' := (save_group sort_values).

(** What a row contributes to the cleaned frame. *)
Local Abbreviation cleaned := (fun r : CsvRow num =>
  timestamp ← MTU r;
  from_code ← area_code (Out_Area r);
  to_code ← area_code (In_Area r);
  flow ← Physical_Flow r;
  Some (from_code, to_code, (timestamp, flow))).

Lemma clean_rows_cons (r : CsvRow num) (rows : list (CsvRow num)) :
  clean_rows (r :: rows)
  = match MTU r with
    | None => clean_rows rows
    | Some timestamp =>
        match area_code (Out_Area r), area_code (In_Area r) with
        | Some from_code, Some to_code =>
            match clean_rows rows with
            | Some df =>
                Some (match Physical_Flow r with
                      | Some flow => (from_code, to_code, (timestamp, flow)) :: df
                      | None => df
                      end)
            | None => None
            end
        | _, _ => None
        end
    end.
Proof.
  unfold clean_rows, with_timestamp, with_codes.
  cbn [omap list_omap]. destruct (MTU r) as [t |]; cbn; [| reflexivity].
  destruct (area_code (Out_Area r)) as [a |]; cbn; [| reflexivity].
  destruct (area_code (In_Area r)) as [b |]; cbn; [| reflexivity].
  destruct (mapM _ _) as [coded |]; cbn; [| reflexivity].
  unfold with_flow. cbn.
  destruct (Physical_Flow r); reflexivity.
Qed.

(** A row of the cleaned frame comes from a row of the CSV. *)
Lemma clean_rows_elem (rows : list (CsvRow num)) df x :
  clean_rows rows = Some df -> x ∈ df ->
  exists r, r ∈ rows /\ cleaned r = Some x.
Proof.
  revert df. induction rows as [| r rows IH]; intros df.
  - intros [= <-] Hx. inversion Hx.
  - rewrite clean_rows_cons.
    destruct (MTU r) as [t |] eqn:Et.
    + destruct (area_code (Out_Area r)) as [a |] eqn:Ea; [| discriminate].
      destruct (area_code (In_Area r)) as [b |] eqn:Eb; [| discriminate].
      destruct (clean_rows rows) as [df' |]; [| discriminate].
      intros [= <-] Hx.
      destruct (Physical_Flow r) as [v |] eqn:Ev.
      * apply elem_of_cons in Hx as [-> | Hx].
        -- exists r. split; [left |]. rewrite Et, Ea, Eb, Ev. reflexivity.
        -- destruct (IH df' eq_refl Hx) as (r' & Hr' & Hc).
           exists r'. split; [right; exact Hr' | exact Hc].
      * destruct (IH df' eq_refl Hx) as (r' & Hr' & Hc).
        exists r'. split; [right; exact Hr' | exact Hc].
    + intros Hdf Hx. destruct (IH df Hdf Hx) as (r' & Hr' & Hc).
      exists r'. split; [right; exact Hr' | exact Hc].
Qed.

(** The script goes through the pre-processing exactly when every row
    with a timestamp has text in its two area cells. *)
Lemma clean_rows_None (rows : list (CsvRow num)) :
  clean_rows rows = None
  <-> exists r, r ∈ rows /\ is_Some (MTU r)
                /\ (Out_Area r = None \/ In_Area r = None).
Proof.
  induction rows as [| r rows IH].
  - split; [discriminate |]. intros (r & Hr & _). inversion Hr.
  - rewrite clean_rows_cons.
    destruct (MTU r) as [t |] eqn:Et.
    + destruct (area_code (Out_Area r)) as [a |] eqn:Ea.
      * destruct (area_code (In_Area r)) as [b |] eqn:Eb.
        -- assert (Ha : Out_Area r <> None)
             by (intros H; rewrite H in Ea; discriminate Ea).
           assert (Hb : In_Area r <> None)
             by (intros H; rewrite H in Eb; discriminate Eb).
           destruct (clean_rows rows) as [df |].
           ++ split; [discriminate |].
              intros (r' & Hr' & Hm & Hc).
              apply elem_of_cons in Hr' as [-> | Hr'].
              ** destruct Hc; contradiction.
              ** assert (H : @None (list (string * string * (Z * num))) = None)
                   by reflexivity.
                 enough (Some df = None) by discriminate.
                 apply IH. eauto.
           ++ split; [| reflexivity]. intros _.
              destruct IH as [IH _].
              destruct (IH eq_refl) as (r' & Hr' & Hc).
              exists r'. split; [right; exact Hr' | exact Hc].
        -- split; [| reflexivity]. intros _.
           apply (proj1 (area_code_None _)) in Eb.
           exists r. rewrite Et. split; [left | split; [eauto | right; exact Eb]].
      * split; [| reflexivity]. intros _.
        apply (proj1 (area_code_None _)) in Ea.
        exists r. rewrite Et. split; [left | split; [eauto | left; exact Ea]].
    + rewrite IH. split.
      * intros (r' & Hr' & Hc). exists r'. split; [right; exact Hr' | exact Hc].
      * intros (r' & Hr' & Hm & Hc).
        apply elem_of_cons in Hr' as [-> | Hr'].
        -- rewrite Et in Hm. destruct Hm as [? Hm]. discriminate Hm.
        -- eauto.
Qed.

(** When it does, the cleaned frame holds the rows with a timestamp and a
    flow, in the order of the file. *)
Lemma clean_rows_Some (rows : list (CsvRow num)) df :
  clean_rows rows = Some df -> df = omap cleaned rows.
Proof.
  revert df. induction rows as [| r rows IH]; intros df.
  - intros [= <-]. reflexivity.
  - rewrite clean_rows_cons. cbn [omap list_omap].
    destruct (MTU r) as [t |]; cbn.
    + destruct (area_code (Out_Area r)) as [a |]; [| discriminate].
      destruct (area_code (In_Area r)) as [b |]; [| discriminate].
      destruct (clean_rows rows) as [df' |]; [| discriminate].
      intros [= <-]. cbn. rewrite <- (IH df' eq_refl).
      destruct (Physical_Flow r); reflexivity.
    + intros Hdf. apply IH, Hdf.
Qed.

Lemma group_keys_elem (df : list (string * string * (Z * num))) key :
  key ∈ group_keys df <-> key ∈ map fst df.
Proof.
  unfold group_keys.
  rewrite merge_sort_Permutation. apply elem_of_remove_dups.
Qed.

Lemma group_keys_NoDup (df : list (string * string * (Z * num))) :
  NoDup (group_keys df).
Proof.
  unfold group_keys.
  rewrite merge_sort_Permutation. apply NoDup_remove_dups.
Qed.

Lemma save_group_other df state key (f : string) :
  f <> flow_filename (fst key) (snd key) ->
  fst (save_group' df state key) f = fst state f.
Proof.
  intros Hf. unfold save_group.
  destruct (snd state); [| reflexivity].
  destruct (import_csv _ _ _); [| reflexivity].
  simpl. unfold to_json.
  apply String.eqb_neq in Hf. rewrite Hf. reflexivity.
Qed.

Lemma save_groups_other df keys state (f : string) :
  (forall key, key ∈ keys -> f <> flow_filename (fst key) (snd key)) ->
  fst (foldl (save_group' df) state keys) f = fst state f.
Proof.
  revert state. induction keys as [| key keys IH]; intros state Hf;
    [reflexivity |].
  simpl. rewrite IH by (intros k Hk; apply Hf; right; exact Hk).
  apply save_group_other, Hf. left.
Qed.

Lemma import_csv_is_Some (existing : option (FileContent num)) group :
  (forall df, existing = Some (Json df) -> ts_column df = TzNaive ->
              records df = []) ->
  is_Some (import_csv sort_values existing group).
Proof.
  intros Hn. unfold import_csv.
  destruct existing as [[| df] |]; eauto.
  unfold df_empty. specialize (Hn df eq_refl).
  destruct (records df) eqn:Hr; simpl; [eauto |].
  destruct (ts_column df); eauto.
  discriminate (Hn eq_refl).
Qed.

Lemma save_group_running df state key :
  snd state = true -> no_naive_file (fst state) ->
  snd (save_group' df state key) = true
  /\ no_naive_file (fst (save_group' df state key)).
Proof.
  intros Hrun Hn. unfold save_group. rewrite Hrun.
  destruct (import_csv_is_Some (fst state (flow_filename (fst key) (snd key)))
              (get_group key df)) as [saved ->].
  { intros d Hd. apply (Hn _ _ Hd). }
  simpl. split; [reflexivity |].
  intros f d. unfold to_json.
  destruct (String.eqb f _).
  - intros [= <-]. discriminate.
  - apply Hn.
Qed.

Lemma save_groups_running df keys state :
  snd state = true -> no_naive_file (fst state) ->
  snd (foldl (save_group' df) state keys) = true
  /\ no_naive_file (fst (foldl (save_group' df) state keys)).
Proof.
  revert state. induction keys as [| key keys IH]; intros state Hrun Hn;
    [split; assumption |].
  simpl. destruct (save_group_running df state key Hrun Hn) as [Hrun' Hn'].
  apply IH; assumption.
Qed.

(** X18.  The import changes a file only when the CSV has the four columns
    and a row with a timestamp and a numeric flow names the pair of the
    file: a CSV that is missing, unreadable or without one of the columns
    changes nothing, and neither do rows without timestamp or flow. *)
Theorem import_changes_only_named_files (fs : FileSystem num)
    (csv : CsvFile num) (f : string) :
  fst (import_csv_file' fs csv) f <> fs f ->
  exists columns rows r timestamp from_code to_code flow,
    csv = CsvTable columns rows
    /\ Forall (fun col => col ∈ columns) required_columns
    /\ r ∈ rows
    /\ MTU r = Some timestamp
    /\ area_code (Out_Area r) = Some from_code
    /\ area_code (In_Area r) = Some to_code
    /\ Physical_Flow r = Some flow
    /\ f = flow_filename from_code to_code.
Proof.
  intros Hf. destruct csv as [| | columns rows];
    [contradiction Hf; reflexivity | contradiction Hf; reflexivity |].
  unfold import_csv_file in Hf.
  destruct (forallb _ required_columns) eqn:Hcols;
    [| contradiction Hf; reflexivity].
  destruct (clean_rows rows) as [df |] eqn:Hdf;
    [| contradiction Hf; reflexivity].
  destruct (decide (f ∈ map (fun key => flow_filename (fst key) (snd key))
                            (group_keys df))) as [Hin | Hout].
  - apply list_elem_of_fmap in Hin as (key & -> & Hkey).
    apply group_keys_elem, list_elem_of_fmap in Hkey as (x & -> & Hx).
    destruct (clean_rows_elem rows df x Hdf Hx) as (r & Hr & Hc).
    destruct (MTU r) as [t |] eqn:Et; [| discriminate].
    destruct (area_code (Out_Area r)) as [a |] eqn:Ea; [| discriminate].
    destruct (area_code (In_Area r)) as [b |] eqn:Eb; [| discriminate].
    destruct (Physical_Flow r) as [v |] eqn:Ev; [| discriminate].
    cbn in Hc. injection Hc as <-.
    exists columns, rows, r, t, a, b, v.
    split; [reflexivity |].
    split; [| repeat (split; [first [reflexivity | assumption] |]);
              reflexivity].
    apply Forall_forall. intros col Hcol.
    rewrite forallb_forall in Hcols.
    apply list_elem_of_In in Hcol.
    apply (bool_decide_eq_true_1 _ (Hcols col Hcol)).
  - contradiction Hf. apply save_groups_other.
    intros key Hkey ->. apply Hout.
    apply list_elem_of_fmap. eauto.
Qed.

(** X19.  Rows without a timestamp or without a numeric flow are dropped
    and the rest is imported as if they were not in the file, as long as
    every row with a timestamp has text in its two area cells. *)
Theorem unusable_rows_are_ignored (fs : FileSystem num)
    (columns : list string) (rows : list (CsvRow num)) :
  (forall r, r ∈ rows -> is_Some (MTU r) ->
             is_Some (Out_Area r) /\ is_Some (In_Area r)) ->
  import_csv_file' fs (CsvTable columns rows)
  = import_csv_file' fs (CsvTable columns (filter usable_row rows)).
Proof.
  intros Htext. unfold import_csv_file.
  destruct (forallb _ required_columns); [| reflexivity].
  assert (Hsome : forall l : list (CsvRow num),
            (forall r, r ∈ l -> r ∈ rows) ->
            clean_rows l = Some (omap cleaned l)).
  { intros l Hl. destruct (clean_rows l) as [df |] eqn:Hdf.
    - f_equal. apply clean_rows_Some, Hdf.
    - apply clean_rows_None in Hdf as (r & Hr & Hm & Hc).
      destruct (Htext r (Hl r Hr) Hm) as [[? Ho] [? Hi]].
      destruct Hc; congruence. }
  rewrite (Hsome rows) by auto.
  rewrite (Hsome (filter usable_row rows))
    by (intros r Hr; apply list_elem_of_filter in Hr as [_ Hr]; exact Hr).
  rewrite omap_filter; [reflexivity |].
  intros r Hr. unfold usable_row in Hr.
  destruct (MTU r) as [t |]; [| reflexivity].
  destruct (Physical_Flow r) as [v |].
  - contradiction Hr. split; eauto.
  - cbn. destruct (area_code (Out_Area r)); [| reflexivity].
    cbn. destruct (area_code (In_Area r)); reflexivity.
Qed.

(** X20.  When no stored file has stamps without a timezone, the script
    ends on an exception exactly when the CSV has the four columns and
    some row with a timestamp has an area cell without text; it has then
    written nothing, whatever the other rows are. *)
Theorem import_stops_iff_area_not_text (fs : FileSystem num)
    (csv : CsvFile num) :
  no_naive_file fs ->
  (snd (import_csv_file' fs csv) = false
   <-> exists columns rows r,
         csv = CsvTable columns rows
         /\ Forall (fun col => col ∈ columns) required_columns
         /\ r ∈ rows /\ is_Some (MTU r)
         /\ (Out_Area r = None \/ In_Area r = None))
  /\ (snd (import_csv_file' fs csv) = false ->
      fst (import_csv_file' fs csv) = fs).
Proof.
  intros Hn.
  assert (Hcols : forall columns : list string,
            forallb (fun col => bool_decide (col ∈ columns)) required_columns
            = true
            <-> Forall (fun col => col ∈ columns) required_columns).
  { intros columns. rewrite forallb_forall, Forall_forall. split.
    - intros H col Hcol. apply list_elem_of_In in Hcol.
      apply (bool_decide_eq_true_1 _ (H col Hcol)).
    - intros H col Hcol. apply bool_decide_eq_true_2, H, list_elem_of_In, Hcol. }
  destruct csv as [| | columns rows]; unfold import_csv_file.
  - split; [| discriminate]. split; [discriminate |].
    intros (? & ? & ? & [=] & _).
  - split; [| discriminate]. split; [discriminate |].
    intros (? & ? & ? & [=] & _).
  - destruct (forallb _ required_columns) eqn:Ec.
    + destruct (clean_rows rows) as [df |] eqn:Hdf.
      * destruct (save_groups_running df (group_keys df) (fs, true) eq_refl Hn)
          as [Hrun _].
        rewrite Hrun. split; [| discriminate]. split; [discriminate |].
        intros (columns' & rows' & r & [= <- <-] & _ & Hr & Hm & Hc).
        enough (Some df = None) by discriminate.
        rewrite <- Hdf. apply clean_rows_None. eauto.
      * split; [| reflexivity]. split; [| reflexivity]. intros _.
        apply clean_rows_None in Hdf as (r & Hr & Hm & Hc).
        exists columns, rows, r.
        split; [reflexivity |]. split; [apply Hcols, Ec |]. auto.
    + split; [| discriminate]. split; [discriminate |].
      intros (columns' & rows' & r & [= <- <-] & Hc & _).
      apply Hcols in Hc. congruence.
Qed.

(** X21.  When the pre-processing goes through and no stored file has
    stamps without a timezone, the script returns, and the file of a pair
    that shares its file name with no other pair of the CSV is the one the
    merge makes of the file stored before and of the rows of that pair
    alone: the other rows of the CSV have no part in it. *)
Theorem import_writes_each_pair (fs : FileSystem num)
    (columns : list string) (rows : list (CsvRow num))
    (df : list (string * string * (Z * num))) (key : string * string) :
  Forall (fun col => col ∈ columns) required_columns ->
  clean_rows rows = Some df ->
  no_naive_file fs ->
  key ∈ map fst df ->
  (forall key', key' ∈ map fst df ->
     flow_filename (fst key') (snd key') = flow_filename (fst key) (snd key) ->
     key' = key) ->
  snd (import_csv_file' fs (CsvTable columns rows)) = true
  /\ exists saved,
       import_csv sort_values (fs (flow_filename (fst key) (snd key)))
                  (get_group key df) = Some saved
       /\ fst (import_csv_file' fs (CsvTable columns rows))
              (flow_filename (fst key) (snd key))
          = Some (Json (mkDataFrame TzAware saved)).
Proof.
  intros Hcols Hdf Hn Hkey Huniq. unfold import_csv_file.
  assert (Ec : forallb (fun col => bool_decide (col ∈ columns)) required_columns
               = true).
  { rewrite forallb_forall. intros col Hcol.
    apply bool_decide_eq_true_2. rewrite Forall_forall in Hcols.
    apply Hcols, list_elem_of_In, Hcol. }
  rewrite Ec, Hdf.
  split; [apply save_groups_running; [reflexivity | exact Hn] |].
  pose proof (group_keys_NoDup df) as Hnd.
  assert (Hin : key ∈ group_keys df) by (apply group_keys_elem, Hkey).
  assert (Hsub : forall k, k ∈ group_keys df -> k ∈ map fst df)
    by (intros k; apply group_keys_elem).
  destruct (list_elem_of_split _ _ Hin) as (before & after & Hsplit).
  rewrite Hsplit in Hnd, Hsub |- *.
  apply NoDup_app in Hnd as (_ & Hba & Hnd).
  apply NoDup_cons in Hnd as [Hafter _].
  assert (Hother : forall k, k ∈ before ++ after ->
            flow_filename (fst key) (snd key)
            <> flow_filename (fst k) (snd k)).
  { intros k Hk Hname. symmetry in Hname.
    assert (Hk' : k ∈ before ++ key :: after).
    { apply elem_of_app in Hk as [Hk | Hk]; apply elem_of_app;
        [left | right; right]; exact Hk. }
    apply Huniq in Hname; [| apply Hsub, Hk'].
    subst k. apply elem_of_app in Hk as [Hk | Hk].
    - apply (Hba key Hk). left.
    - contradiction. }
  rewrite foldl_app. cbn [foldl].
  set (state := foldl (save_group' df) (fs, true) before).
  destruct (save_groups_running df before (fs, true) eq_refl Hn)
    as [Hrun Hn'].
  fold state in Hrun, Hn'.
  assert (Hfile : fst state (flow_filename (fst key) (snd key))
                  = fs (flow_filename (fst key) (snd key))).
  { unfold state. apply save_groups_other.
    intros k Hk. apply Hother, elem_of_app. left. exact Hk. }
  destruct (import_csv_is_Some (fs (flow_filename (fst key) (snd key)))
              (get_group key df)) as [saved Hsaved].
  { intros d Hd. apply (Hn _ _ Hd). }
  exists saved. split; [exact Hsaved |].
  rewrite save_groups_other
    by (intros k Hk; apply Hother, elem_of_app; right; exact Hk).
  unfold save_group. rewrite Hrun, Hfile, Hsaved. simpl.
  unfold to_json. rewrite String.eqb_refl. reflexivity.
Qed.
End ImportScriptFacts.

Lemma no_file_no_naive : no_naive_file no_file.
Proof. intros f df Hf. discriminate Hf. Qed.

Lemma import_changes_only_named_files_witness :
  exists columns rows r timestamp from_code to_code flow,
    export_csv = CsvTable columns rows
    /\ Forall (fun col => col ∈ columns) required_columns
    /\ r ∈ rows
    /\ MTU r = Some timestamp
    /\ area_code (Out_Area r) = Some from_code
    /\ area_code (In_Area r) = Some to_code
    /\ Physical_Flow r = Some flow
    /\ "data/flow_BG_RO.json" = flow_filename from_code to_code.
Proof.
  apply (import_changes_only_named_files insertion_sort no_file export_csv
           "data/flow_BG_RO.json").
  vm_compute. discriminate.
Defined.

Lemma unusable_rows_are_ignored_witness :
  import_csv_file insertion_sort no_file export_csv
  = import_csv_file insertion_sort no_file
      (CsvTable export_columns (filter usable_row export_rows)).
Proof.
  apply (unusable_rows_are_ignored insertion_sort no_file export_columns
           export_rows).
  intros r Hr _. unfold export_rows in Hr.
  repeat (apply elem_of_cons in Hr as [-> | Hr];
          [split; eexists; reflexivity |]).
  inversion Hr.
Defined.

Lemma import_stops_iff_area_not_text_witness :
  snd (import_csv_file insertion_sort no_file export_with_empty_area) = false
  /\ fst (import_csv_file insertion_sort no_file export_with_empty_area)
     = no_file.
Proof.
  destruct (import_stops_iff_area_not_text insertion_sort no_file
              export_with_empty_area no_file_no_naive) as [_ Hfs].
  split; [reflexivity | apply Hfs; reflexivity].
Defined.

Lemma import_writes_each_pair_witness :
  snd (import_csv_file insertion_sort no_file export_csv) = true
  /\ exists saved,
       import_csv insertion_sort (no_file "data/flow_BG_RO.json")
                  [(3600, 120); (0, 100)] = Some saved
       /\ fst (import_csv_file insertion_sort no_file export_csv)
              "data/flow_BG_RO.json"
          = Some (Json (mkDataFrame TzAware saved)).
Proof.
  apply (import_writes_each_pair insertion_sort no_file export_columns
           export_rows
           [("BG", "RO", (3600, 120)); ("BG", "RO", (0, 100));
            ("GR", "BG", (0, 50))]
           ("BG", "RO")).
  - unfold required_columns, export_columns.
    repeat (apply Forall_cons; split; [set_solver |]). apply Forall_nil_2.
  - reflexivity.
  - exact no_file_no_naive.
  - left.
  - intros key' Hk. simpl in Hk.
    repeat (apply elem_of_cons in Hk as [-> | Hk]);
      [reflexivity | reflexivity | discriminate | inversion Hk].
Defined.

(** With an underscore in the codes two pairs share a file: the script
    writes the rows of the first pair and then merges those of the second
    into them, and a flow of the first pair is lost. *)
Example import_shared_file_is_merged :
  fst (import_csv_file insertion_sort no_file export_shared_name)
      "data/flow_A_B_C.json"
  = Some (Json (mkDataFrame TzAware [(0, 1); (3600, 3)])).
Proof. reflexivity. Qed.

(** One empty area cell stops the import of every pair. *)
Example import_empty_area_writes_nothing :
  fst (import_csv_file insertion_sort no_file export_csv)
      "data/flow_GR_BG.json"
  = Some (Json (mkDataFrame TzAware [(0, 50)]))
  /\ import_csv_file insertion_sort no_file export_with_empty_area
         = (no_file, false).
Proof. split; reflexivity. Qed.

(** ** The dummy data and the completeness report *)

Lemma filter_keeps_all {A} (P : A -> Prop) `{!forall x, Decision (P x)}
    (l : list A) :
  (forall x, x ∈ l -> P x) -> filter P l = l.
Proof.
  induction l as [| x l IH]; intros Hall; [reflexivity |].
  rewrite filter_cons, decide_True by (apply Hall; left).
  f_equal. apply IH. intros y Hy. apply Hall. right. exact Hy.
Qed.

Lemma seqZ_window (f : Z -> Z) (lo hi : Z) (a b n : Z) :
  0 <= a -> a <= b -> b < n ->
  (forall k, a <= k <= b -> lo <= f k <= hi) ->
  b - a + 1
  <= Z.of_nat (length (filter (fun t => lo <= t <= hi) (map f (seqZ 0 n)))).
Proof.
  intros Ha Hab Hb Hf.
  assert (Hmid : filter (fun t => lo <= t <= hi)
                   (map f (seqZ (0 + a) (b - a + 1)))
                 = map f (seqZ (0 + a) (b - a + 1))).
  { apply filter_keeps_all. intros t Ht.
    apply list_elem_of_fmap in Ht as (k & -> & Hk).
    apply elem_of_seqZ in Hk. apply Hf. lia. }
  remember (b - a + 1) as m eqn:Em.
  remember (n - b - 1) as r eqn:Er.
  replace n with (a + (m + r)) by lia.
  rewrite (seqZ_app 0 a (m + r)), (seqZ_app (0 + a) m r) by lia.
  rewrite !map_app, !filter_app, !length_app.
  rewrite Hmid, length_map, length_seqZ. lia.
Qed.

Section DummyDataFacts.
Context {num : Type}.
Variable tz_localize : Z -> Z.
Variable uniform : nat -> nat -> list num.

Local Abbreviation dummy_dates' := (dummy_dates tz_localize).
Local Abbreviation generate_pair' := (generate_pair tz_localize uniform).

(** The file holds the frame of some round of the loop. *)
Local Abbreviation written := (fun (fs : FileSystem num) (f : string) =>
  exists i, fs f = Some (Json (mkDataFrame TzAware
                                 (zip dummy_dates'
                                      (uniform i (length dummy_dates')))))).

Lemma generate_pair_written state pair (f : string) :
  written (fst state) f \/ f = flow_filename (fst pair) (snd pair) ->
  written (fst (generate_pair' state pair)) f.
Proof.
  intros H. unfold generate_pair. cbn [fst]. unfold to_json.
  destruct (String.eqb_spec f (flow_filename (fst pair) (snd pair)))
    as [E | E].
  - eauto.
  - destruct H as [H | H]; [exact H | contradiction].
Qed.

Lemma generate_pairs_written pairs state (f : string) :
  written (fst state) f
  \/ (exists pair, pair ∈ pairs /\ f = flow_filename (fst pair) (snd pair)) ->
  written (fst (foldl generate_pair' state pairs)) f.
Proof.
  revert state. induction pairs as [| pair pairs IH]; intros state H.
  - destruct H as [H | (pair & Hp & _)]; [exact H | inversion Hp].
  - cbn [foldl]. apply IH.
    destruct H as [H | (p & Hp & Hf)].
    + left. apply generate_pair_written. left. exact H.
    + apply elem_of_cons in Hp as [-> | Hp].
      * left. apply generate_pair_written. right. exact Hf.
      * right. eauto.
Qed.

(** X22.  With Brussels one or two hours ahead of UTC at every midnight,
    the files of the dummy data pass the completeness report: for a window
    of at least one day between 1 January 2023 and 1 January 2024 every
    pair of the topology is "Complete" at 100 with the descriptor "None",
    whatever was stored before and whatever flows are drawn. *)
Theorem dummy_data_report_complete (fs : FileSystem num)
    (countries : list Country) (s e : Z) :
  (forall d, tz_localize d = d * 86400 - 3600
             \/ tz_localize d = d * 86400 - 7200) ->
  (forall i n, length (uniform i n) = n) ->
  day_20230101 <= s -> s < e -> e <= day_20240101 ->
  Forall (fun entry => Status_ entry = Complete
                       /\ Completeness_ entry = 100%Q
                       /\ MissingInfo_ entry = NoneMissing)
         (report tz_localize countries
                 (generate_dummy_data tz_localize uniform fs countries) s e).
Proof.
  intros Htz Hlen Hs Hse He.
  set (fs' := generate_dummy_data tz_localize uniform fs countries).
  set (T0 := tz_localize day_20230101).
  set (T1 := tz_localize day_20240101).
  assert (Hpair : forall a b, (a, b) ∈ edges countries ->
            audit tz_localize fs' a b s e = mkLocals Complete NoneMissing 100).
  { intros a b Hab.
    destruct (generate_pairs_written (edges countries) (fs, O)
                (flow_filename a b)) as [i Hfile].
    { right. exists (a, b). split; [exact Hab | reflexivity]. }
    fold (generate_dummy_data tz_localize uniform fs countries) in Hfile.
    fold fs' in Hfile.
    set (df := mkDataFrame TzAware
                 (zip dummy_dates' (uniform i (length dummy_dates')))) in Hfile.
    assert (Hstamps : map fst (records df) = dummy_dates').
    { unfold df. cbn [records]. apply fst_zip. rewrite Hlen. lia. }
    assert (Hcount : (e - s) * 24
                     <= Z.of_nat (length (in_window tz_localize df s e))).
    { unfold in_window. rewrite Hstamps.
      unfold dummy_dates, date_range_h. fold T0 T1.
      pose proof (Htz day_20230101) as H0. fold T0 in H0.
      pose proof (Htz day_20240101) as H1. fold T1 in H1.
      pose proof (Htz s) as H2. pose proof (Htz e) as H3.
      unfold day_20230101, day_20240101 in *.
      set (a' := (tz_localize s - T0) `div` 3600).
      set (b' := (tz_localize e - T0) `div` 3600).
      assert (Ea : tz_localize s = T0 + a' * 3600).
      { unfold a'. destruct H0 as [-> | ->], H2 as [-> | ->].
        - replace (s * 86400 - 3600 - (19358 * 86400 - 3600))
            with ((s - 19358) * 24 * 3600) by lia.
          rewrite Z.div_mul by lia. lia.
        - replace (s * 86400 - 7200 - (19358 * 86400 - 3600))
            with (((s - 19358) * 24 - 1) * 3600) by lia.
          rewrite Z.div_mul by lia. lia.
        - replace (s * 86400 - 3600 - (19358 * 86400 - 7200))
            with (((s - 19358) * 24 + 1) * 3600) by lia.
          rewrite Z.div_mul by lia. lia.
        - replace (s * 86400 - 7200 - (19358 * 86400 - 7200))
            with ((s - 19358) * 24 * 3600) by lia.
          rewrite Z.div_mul by lia. lia. }
      assert (Eb : tz_localize e = T0 + b' * 3600).
      { unfold b'. destruct H0 as [-> | ->], H3 as [-> | ->].
        - replace (e * 86400 - 3600 - (19358 * 86400 - 3600))
            with ((e - 19358) * 24 * 3600) by lia.
          rewrite Z.div_mul by lia. lia.
        - replace (e * 86400 - 7200 - (19358 * 86400 - 3600))
            with (((e - 19358) * 24 - 1) * 3600) by lia.
          rewrite Z.div_mul by lia. lia.
        - replace (e * 86400 - 3600 - (19358 * 86400 - 7200))
            with (((e - 19358) * 24 + 1) * 3600) by lia.
          rewrite Z.div_mul by lia. lia.
        - replace (e * 86400 - 7200 - (19358 * 86400 - 7200))
            with ((e - 19358) * 24 * 3600) by lia.
          rewrite Z.div_mul by lia. lia. }
      assert (Hle1 : tz_localize e <= T1).
      { destruct (decide (e = 19723)) as [-> | Hne]; [apply Z.le_refl | lia]. }
      assert (Hle0 : T0 <= tz_localize s).
      { destruct (decide (s = 19358)) as [-> | Hne]; [apply Z.le_refl | lia]. }
      assert (Hn : b' < (T1 - T0) `div` 3600 + 1).
      { assert (b' <= (T1 - T0) `div` 3600); [| lia].
        unfold b'. apply Z.div_le_mono; lia. }
      assert (Ha0 : 0 <= a').
      { unfold a'. apply Z.div_pos; lia. }
      assert (Hab' : (e - s) * 24 <= b' - a' + 1) by lia.
      etrans; [exact Hab' |].
      apply seqZ_window; lia. }
    assert (Hne : records df <> []).
    { intros E. unfold in_window in Hcount. rewrite E in Hcount.
      simpl in Hcount. lia. }
    rewrite (audit_aware tz_localize fs' a b s e df Hfile eq_refl Hne).
    cbv zeta.
    destruct (Z.eqb_spec (Z.of_nat (length (in_window tz_localize df s e))) 0);
      [lia |].
    destruct (Z.eqb_spec ((e - s) * 24) 0); [lia |].
    assert (Hmin : py_min 100
              (inject_Z (Z.of_nat (length (in_window tz_localize df s e)))
               / inject_Z ((e - s) * 24) * 100) = 100%Q).
    { unfold py_min. destruct (Qlt_bool _ 100) eqn:E; [| reflexivity].
      exfalso. apply Qlt_bool_iff in E.
      apply (Qlt_not_le _ _ E), percent_full; lia. }
    rewrite Hmin. reflexivity. }
  apply Forall_forall. intros entry Hentry.
  unfold report in Hentry.
  apply list_elem_of_bind in Hentry as (country & Hentry & Hcountry).
  apply list_elem_of_bind in Hentry as (code_to & Hentry & Hto).
  apply list_elem_of_singleton in Hentry. subst entry.
  unfold report_entry. cbn.
  rewrite Hpair; [repeat split |].
  unfold edges. apply list_elem_of_bind. exists country. split; [| exact Hcountry].
  apply list_elem_of_bind. exists code_to. split; [| exact Hto].
  apply list_elem_of_singleton. reflexivity.
Qed.
End DummyDataFacts.

Lemma dummy_data_report_complete_witness :
  Forall (fun entry => Status_ entry = Complete
                       /\ Completeness_ entry = 100%Q
                       /\ MissingInfo_ entry = NoneMissing)
         (report brussels_winter balkans
                 (generate_dummy_data brussels_winter
                    (fun _ n => replicate n 500) no_file balkans)
                 19400 19407).
Proof.
  apply (dummy_data_report_complete brussels_winter
           (fun _ n => replicate n 500) no_file balkans 19400 19407).
  - intros d. left. reflexivity.
  - intros i n. apply length_replicate.
  - unfold day_20230101. lia.
  - lia.
  - unfold day_20240101. lia.
Defined.

(** ** The metrics of the balance *)

Lemma column_sums_exact (I E N : gmap Z (option Z)) (index : list Z)
    (ai ae : Z) :
  (forall t, t ∈ index ->
     exists i e, I !! t = Some (Some i) /\ E !! t = Some (Some e)
                 /\ N !! t = Some (Some (e - i))) ->
  foldl (fun acc t => let v := aligned None (N !! t) in
                      if xisna v then acc else xadd acc v)
        (Some (ae - ai)) index
  = xsub (foldl (fun acc t => let v := aligned None (E !! t) in
                              if xisna v then acc else xadd acc v)
                (Some ae) index)
         (foldl (fun acc t => let v := aligned None (I !! t) in
                              if xisna v then acc else xadd acc v)
                (Some ai) index).
Proof.
  revert ai ae. induction index as [| t index IH]; intros ai ae Hall;
    [reflexivity |].
  destruct (Hall t ltac:(left)) as (i & e & Hi & He & Hn).
  cbn [foldl]. rewrite Hi, He, Hn. cbn.
  replace (ae - ai + (e - i)) with ((ae + e) - (ai + i)) by lia.
  apply IH. intros t' Ht'. apply Hall. right. exact Ht'.
Qed.

(** X23.  With exact flows the three metrics of the "Country Total" view
    agree for every date range: the net balance is the total of the
    exports minus the total of the imports. *)
Theorem net_balance_is_exports_minus_imports (fs : FileSystem (option Z))
    (countries : list Country) (target_code : string)
    (view : BalanceView (option Z)) (tb : BalanceTable (option Z))
    (start_date end_date : Z) :
  country_total_exact fs countries target_code = Some view ->
  table view = Some tb ->
  let index := filtered_index tb start_date end_date in
  column_sum (Some 0) None xisna xadd (NetFlow tb) index
  = xsub (column_sum (Some 0) None xisna xadd (Exports tb) index)
         (column_sum (Some 0) None xisna xadd (Imports tb) index).
Proof.
  intros Hview Htb index.
  apply country_total_inv in Hview as (target & _ & Hview). cbv zeta in Hview.
  destruct (series_empty _ && series_empty _);
    [subst view; discriminate Htb |].
  destruct Hview as (I & E & -> & HdI & HdE & Hval).
  injection Htb as <-. cbn [Imports Exports NetFlow] in *.
  unfold column_sum.
  apply (column_sums_exact I E _ index 0 0).
  intros t Ht. unfold index, filtered_index in Ht. cbn [Imports] in Ht.
  apply list_elem_of_filter in Ht as [_ Ht].
  apply elem_of_elements in Ht. rewrite HdI in Ht.
  destruct (Hval t Ht) as [Hi He].
  pose proof (column_value_number (Some 0) None xisna
                (aligned_sum (Some 0) None xisna xadd
                   (import_series fs target_code countries)) t eq_refl) as Ni.
  pose proof (column_value_number (Some 0) None xisna
                (aligned_sum (Some 0) None xisna xadd
                   (export_series fs target_code target)) t eq_refl) as Ne.
  destruct (column_value _ _ _ (aligned_sum _ _ _ _ (import_series _ _ _)) t)
    as [i |]; [| discriminate Ni].
  destruct (column_value _ _ _ (aligned_sum _ _ _ _ (export_series _ _ _)) t)
    as [e |]; [| discriminate Ne].
  exists i, e. split; [exact Hi |]. split; [exact He |].
  rewrite lookup_series_sub, Hi, He. reflexivity.
Qed.

Lemma net_balance_is_exports_minus_imports_witness :
  exists view tb,
    country_total_exact three_files balkans "BG" = Some view
    /\ table view = Some tb
    /\ column_sum (Some 0) None xisna xadd (NetFlow tb)
                  (filtered_index tb 0 0)
       = xsub (column_sum (Some 0) None xisna xadd (Exports tb)
                          (filtered_index tb 0 0))
              (column_sum (Some 0) None xisna xadd (Imports tb)
                          (filtered_index tb 0 0)).
Proof.
  eexists _, _. split; [vm_compute; reflexivity |].
  split; [reflexivity |].
  eapply (net_balance_is_exports_minus_imports three_files balkans "BG");
    vm_compute; reflexivity.
Defined.

Example net_balance_of_bulgaria :
  exists tb,
    country_total_exact three_files balkans "BG"
    = Some (mkView false (Some tb))
    /\ column_sum (Some 0) None xisna xadd (Exports tb) (filtered_index tb 0 0)
       = Some 10
    /\ column_sum (Some 0) None xisna xadd (Imports tb) (filtered_index tb 0 0)
       = Some 7
    /\ column_sum (Some 0) None xisna xadd (NetFlow tb) (filtered_index tb 0 0)
       = Some 3.
Proof.
  eexists. split; [vm_compute; reflexivity |]. vm_compute. repeat split.
Qed.

(** ** The progress bar *)

Lemma total_pairs_edges (countries : list Country) :
  total_pairs countries = Z.of_nat (length (edges countries)).
Proof.
  unfold total_pairs.
  enough (H : forall acc,
            foldl (fun acc c => acc + Z.of_nat (length (neighbors c))) acc
                  countries
            = acc + Z.of_nat (length (edges countries)))
    by (rewrite H; lia).
  induction countries as [| c cs IH]; intros acc; [simpl; lia |].
  cbn [foldl]. rewrite IH. unfold edges. rewrite bind_cons, length_app.
  assert (Hc : length (code_to ← neighbors c; [(code c, code_to)])
               = length (neighbors c)).
  { induction (neighbors c) as [| n ns IHn]; [reflexivity |].
    rewrite bind_cons. simpl. f_equal. exact IHn. }
  rewrite Hc. lia.
Qed.

Lemma progress_rounds {A} (total : Z) (pairs : list A) (processed : Z)
    (values : list Q) :
  total <> 0 ->
  foldl (fun state _ => state ≫= progress_round total)
        (Some (processed, values)) pairs
  = Some (processed + Z.of_nat (length pairs),
          values ++ map (fun k => (inject_Z k / inject_Z total)%Q)
                        (seqZ (processed + 1) (Z.of_nat (length pairs)))).
Proof.
  intros Ht. revert processed values.
  induction pairs as [| p pairs IH]; intros processed values.
  - simpl. rewrite app_nil_r. repeat f_equal. lia.
  - cbn [foldl]. cbn [mbind option_bind]. unfold progress_round at 2.
    cbn [fst snd]. destruct (Z.eqb_spec total 0); [contradiction |].
    rewrite IH. cbn [length].
    rewrite Nat2Z.inj_succ, <- Z.add_1_l.
    rewrite (seqZ_app (processed + 1) 1 (Z.of_nat (length pairs))) by lia.
    rewrite map_app, <- app_assoc, Z.add_assoc. reflexivity.
Qed.

Lemma last_map_seqZ {A} (f : Z -> A) (n : Z) :
  1 <= n -> last (map f (seqZ 1 n)) = Some (f n).
Proof.
  intros Hn.
  assert (Hs : seqZ 1 n = seqZ 1 (n - 1) ++ [n]).
  { replace n with ((n - 1) + 1) at 1 by lia.
    rewrite seqZ_app by lia.
    replace (1 + (n - 1)) with n by lia. reflexivity. }
  rewrite Hs, map_app. apply last_snoc.
Qed.

(** X24.  The progress bar is never given a value outside of the interval
    from 0 to 1 and the division never fails: with [n] pairs in the
    topology the values are [1/n], [2/n], up to [n/n], one for each pair. *)
Theorem progress_stays_within_bounds (countries : list Country) :
  let n := Z.of_nat (length (edges countries)) in
  exists values,
    progress_loop countries = Some (n, values)
    /\ values = map (fun k => (inject_Z k / inject_Z n)%Q) (seqZ 1 n)
    /\ Forall (fun q => (0 < q)%Q /\ (q <= 1)%Q) values
    /\ forall q, last values = Some q -> (q == 1)%Q.
Proof.
  intros n. unfold progress_loop. rewrite total_pairs_edges. fold n.
  assert (Hvalues : forall k, 1 <= k <= n ->
            (0 < inject_Z k / inject_Z n)%Q
            /\ (inject_Z k / inject_Z n <= 1)%Q
            /\ (k = n -> inject_Z k / inject_Z n == 1)%Q).
  { intros k Hk. destruct n as [| p | p]; try lia.
    unfold Qlt, Qle, Qeq, Qdiv, Qmult, Qinv, inject_Z. simpl.
    split; [lia |]. split; [lia |]. intros ->. lia. }
  destruct (decide (n = 0)) as [Hn | Hn].
  - assert (He : edges countries = []).
    { destruct (edges countries); [reflexivity | simpl in n; lia]. }
    rewrite He, Hn. exists []. repeat split; [constructor | discriminate].
  - rewrite progress_rounds by exact Hn. fold n.
    eexists. split; [reflexivity |]. split; [reflexivity |]. split.
    + apply Forall_forall. intros q Hq.
      apply list_elem_of_fmap in Hq as (k & -> & Hk).
      apply elem_of_seqZ in Hk.
      destruct (Hvalues k) as (H0 & H1 & _); [lia | auto].
    + intros q Hq. cbn [app] in Hq.
      rewrite last_map_seqZ in Hq by lia. injection Hq as <-.
      apply (Hvalues n); lia.
Qed.

Example progress_of_the_balkans :
  progress_loop balkans = Some (3, [(1 # 3)%Q; (2 # 3)%Q; (3 # 3)%Q]).
Proof. reflexivity. Qed.
